(** * mcp_chatbot.py: a console chat client that lets a model call remote tools

    Shallow embedding of [src/mcp_chatbot.py] (class [MCP_ChatBot] and [main])
    and the properties of its conversation loop, capability registry and
    command dispatcher.

    - Python [str] values are Rocq strings (bytes); the embedding is exact on
      ASCII text, which is all the program's own literals and commands use.
    - The [MCP_ChatBot] object, the console and the two remote ends (the model
      API and the MCP transport) are one record of state, threaded through a
      state-and-exception monad.  Every [print], [input] and remote request
      is appended to a trace, so that what the program printed and whom it
      called can be read off afterwards.
    - The remote ends are black boxes: the k-th request sent to one of them is
      answered by the k-th element of a stream of replies (a value or a raised
      exception).  Quantifying over the streams covers every behaviour of the
      remote end.
    - [while True] loops take a fuel argument. *)

From Stdlib Require Import String Ascii List Bool Arith Lia.
Import ListNotations.
Open Scope string_scope.

(** ** Python strings *)

Definition nl : string := String (ascii_of_nat 10) EmptyString.

(** [str.isspace] on one ASCII character: TAB, LF, VT, FF, CR, FS, GS, RS, US
    and the space. *)
Definition isspace (c : ascii) : bool :=
  let n := nat_of_ascii c in
  (((9 <=? n)%nat && (n <=? 13)%nat) || ((28 <=? n)%nat && (n <=? 32)%nat))%bool.

Definition lower_ascii (c : ascii) : ascii :=
  let n := nat_of_ascii c in
  if ((65 <=? n)%nat && (n <=? 90)%nat)%bool then ascii_of_nat (n + 32) else c.

(** [s.lower()] *)
Fixpoint lower (s : string) : string :=
  match s with
  | EmptyString => EmptyString
  | String c s' => String (lower_ascii c) (lower s')
  end.

(** [s.isascii()]: every character is below U+0080.  On such strings
    [isspace] and [lower] are Python's; beyond ASCII Python knows more
    whitespace and more capitals than they do. *)
Fixpoint is_ascii (s : string) : bool :=
  match s with
  | EmptyString => true
  | String c s' => ((nat_of_ascii c <? 128)%nat && is_ascii s')%bool
  end.

(** [s.startswith(p)] *)
Definition startswith (s p : string) : bool := String.prefix p s.

Fixpoint lstrip (s : string) : string :=
  match s with
  | EmptyString => EmptyString
  | String c s' => if isspace c then lstrip s' else s
  end.

Fixpoint rstrip (s : string) : string :=
  match s with
  | EmptyString => EmptyString
  | String c s' =>
      match rstrip s' with
      | EmptyString => if isspace c then EmptyString else String c EmptyString
      | r => String c r
      end
  end.

(** [s.strip()] *)
Definition strip (s : string) : string := rstrip (lstrip s).

(** [s[1:]] *)
Definition tail (s : string) : string :=
  match s with
  | EmptyString => EmptyString
  | String _ s' => s'
  end.

(** [s.split()]: maximal runs of non-whitespace characters.  [cur] is the
    token being read. *)
Fixpoint split_from (cur s : string) : list string :=
  match s with
  | EmptyString =>
      match cur with EmptyString => [] | _ => [cur] end
  | String c s' =>
      if isspace c
      then match cur with
           | EmptyString => split_from EmptyString s'
           | _ => cur :: split_from EmptyString s'
           end
      else split_from (cur ++ String c EmptyString) s'
  end.

Definition split (s : string) : list string := split_from EmptyString s.

(** [c in s] for a one-character string [c] *)
Fixpoint contains (c : ascii) (s : string) : bool :=
  match s with
  | EmptyString => false
  | String d s' => if Ascii.eqb d c then true else contains c s'
  end.

(** [s.split(c, 1)]: cut at the first [c]; the whole string when there is
    none. *)
Fixpoint split1 (c : ascii) (s : string) : list string :=
  match s with
  | EmptyString => [EmptyString]
  | String d s' =>
      if Ascii.eqb d c then [EmptyString; s']
      else match split1 c s' with
           | x :: rest => String d x :: rest
           | [] => []
           end
  end.

(** [sep.join(l)] *)
Fixpoint join (sep : string) (l : list string) : string :=
  match l with
  | [] => EmptyString
  | [x] => x
  | x :: rest => x ++ sep ++ join sep rest
  end.

(** [str(x)] for a value that may be [None] *)
Definition str_option (o : option string) : string :=
  match o with Some s => s | None => "None" end.

(** ** Python dicts

    A [dict] keeps its keys in insertion order, and [get_resource] depends on
    that order, so a dict is an association list: assigning to a key that is
    present keeps the key's place, a new key goes to the end. *)

Definition dict (V : Type) : Type := list (string * V).

Fixpoint dict_get {V : Type} (d : dict V) (k : string) : option V :=
  match d with
  | [] => None
  | (k', v) :: d' => if String.eqb k' k then Some v else dict_get d' k
  end.

Fixpoint dict_set {V : Type} (d : dict V) (k : string) (v : V) : dict V :=
  match d with
  | [] => [(k, v)]
  | (k', v') :: d' =>
      if String.eqb k' k then (k', v) :: d' else (k', v') :: dict_set d' k v
  end.

(** ** Exceptions

    The program only ever asks two things of an exception: whether
    [except Exception] catches it, and what [str(e)] is. *)

Inductive exn : Type :=
| Exception (cls msg : string)       (* an instance of a subclass of Exception *)
| BaseException (cls msg : string).  (* KeyboardInterrupt, CancelledError, ... *)

Definition str_exn (e : exn) : string :=
  match e with Exception _ msg | BaseException _ msg => msg end.

Definition is_Exception (e : exn) : bool :=
  match e with Exception _ _ => true | BaseException _ _ => false end.

Definition ConnectionError (msg : string) : exn := Exception "ConnectionError" msg.

(** What running a piece of the program gives: a value, a raised exception,
    or the loop fuel ran out. *)
Inductive result (A : Type) : Type :=
| Ok (a : A)
| Raise (e : exn)
| OutOfFuel.
Arguments Ok {A} a.
Arguments Raise {A} e.
Arguments OutOfFuel {A}.

(** ** Data of the two remote interfaces *)

Definition Session : Type := nat.   (* a ClientSession object, by identity *)

(** Structured values that the program only passes on or prints: the input of
    a tool call and the schema of a tool ([Json]), and what a tool call
    returns ([CallToolResult]); [str_json] and [str_result] are Python's
    [str()] on them. *)
Class Payloads : Type := mkPayloads {
  Json : Type;
  CallToolResult : Type;
  str_json : Json -> string;
  str_result : CallToolResult -> string
}.

Section Chatbot.

Context {payloads : Payloads}.

(** A content block of a model response, by its [type]: "text", "tool_use",
    or anything else. *)
Inductive Block : Type :=
| TextBlock (text : string)
| ToolUseBlock (id name : string) (input : Json)
| OtherBlock.

(** [{"type": "tool_result", "tool_use_id": ..., "content": ...}] *)
Record ToolResult : Type := mkToolResult {
  tool_use_id : string;
  tool_result_content : string
}.

Inductive Role : Type := user | assistant.

Inductive MessageContent : Type :=
| Str (query : string)
| ContentBlocks (blocks : list Block)
| ToolResults (tool_results : list ToolResult).

(** [{"role": ..., "content": ...}] *)
Record Message : Type := mkMessage {
  role : Role;
  content : MessageContent
}.

(** A tool as discovery returns it; the entries of [available_tools] copy the
    same three fields. *)
Record Tool : Type := mkTool {
  tool_name : string;
  tool_description : option string;
  tool_inputSchema : Json
}.

(** A declared argument of a prompt: an object with a [name] attribute, or a
    mapping. *)
Inductive PromptArgument : Type :=
| ArgObject (name : string)
| ArgMapping (fields : dict string).

(** A prompt as discovery returns it; the entries of [available_prompts] copy
    the same three fields. *)
Record Prompt : Type := mkPrompt {
  prompt_name : string;
  prompt_description : option string;
  prompt_arguments : option (list PromptArgument)
}.

(** Modelled from the spec: an element of the content list of a resource
    read (its class is declared in the mcp package, not in this repository);
    each element carries a text field. *)
Record ResourceContents : Type := mkResourceContents {
  text : string
}.

(** An element met when iterating over the content of a prompt message:
    its [text] attribute when it has one, and its [str()]. *)
Record Part : Type := mkPart {
  part_text : option string;
  part_str : string
}.

(** The [content] of a prompt message: a [str], or an object that may have a
    [text] attribute and may be iterable. *)
Inductive PromptContent : Type :=
| PlainText (s : string)
| ContentObject (text_attr : option string) (items : option (list Part)).

(** What [exit_stack] holds. *)
Inductive Context_ : Type :=
| SseClient (url : string)
| ClientSession (s : Session).

(** ** Observable events *)

Inductive event : Type :=
| Print (line : string)                         (* print(line) *)
| Input (prompt : string)                       (* input(prompt) *)
| MessagesCreate (model : string) (max_tokens : nat)
    (tools : list Tool) (messages : list Message)
| Enter (c : Context_)                          (* enter_async_context *)
| Close (c : Context_)
| Initialize (s : Session)
| ListTools (s : Session)
| ListPrompts (s : Session)
| ListResources (s : Session)
| CallTool (s : Session) (name : string) (arguments : Json)
| ReadResource (s : Session) (uri : string)
| GetPrompt (s : Session) (name : string) (arguments : dict string).

Definition is_model_call (e : event) : bool :=
  match e with MessagesCreate _ _ _ _ => true | _ => false end.

Definition is_transport_call (e : event) : bool :=
  match e with
  | Print _ | Input _ | MessagesCreate _ _ _ _ | Close _ => false
  | Enter (ClientSession _) => false
  | _ => true
  end.

(** The lines printed, oldest first. *)
Fixpoint printed (tr : list event) : list string :=
  match tr with
  | [] => []
  | Print line :: tr' => line :: printed tr'
  | _ :: tr' => printed tr'
  end.

(** ** The remote ends *)

Class Remote : Type := mkRemote {
  (* the model API: messages.create *)
  model_reply : nat -> exn + list Block;
  (* the MCP transport *)
  sse_client_reply : nat -> exn + unit;
  initialize_reply : nat -> exn + unit;
  list_tools_reply : nat -> exn + list Tool;
  list_prompts_reply : nat -> exn + option (list Prompt);
  list_resources_reply : nat -> exn + option (list string);
  call_tool_reply : nat -> exn + CallToolResult;
  read_resource_reply : nat -> exn + option (list ResourceContents);
  get_prompt_reply : nat -> exn + option (list PromptContent)
}.

Context {remote : Remote}.

(** ** Program state *)

Record State : Type := mkState {
  (* attributes of the MCP_ChatBot object *)
  available_tools : list Tool;
  available_prompts : list Prompt;
  sessions : dict Session;
  session : option Session;       (* None: the attribute is not set *)
  exit_stack : list Context_;     (* most recently entered first *)
  (* the world *)
  trace : list event;             (* oldest first *)
  model_calls : nat;              (* requests sent to the model API *)
  transport_calls : nat;          (* requests sent over the transport *)
  stdin : list string;            (* lines still to be read *)
  next_object : nat               (* identity of the next object created *)
}.

Definition with_available_tools (x : list Tool) (st : State) : State :=
  mkState x (available_prompts st) (sessions st) (session st) (exit_stack st)
    (trace st) (model_calls st) (transport_calls st) (stdin st) (next_object st).

Definition with_available_prompts (x : list Prompt) (st : State) : State :=
  mkState (available_tools st) x (sessions st) (session st) (exit_stack st)
    (trace st) (model_calls st) (transport_calls st) (stdin st) (next_object st).

Definition with_sessions (x : dict Session) (st : State) : State :=
  mkState (available_tools st) (available_prompts st) x (session st) (exit_stack st)
    (trace st) (model_calls st) (transport_calls st) (stdin st) (next_object st).

Definition with_session (x : option Session) (st : State) : State :=
  mkState (available_tools st) (available_prompts st) (sessions st) x (exit_stack st)
    (trace st) (model_calls st) (transport_calls st) (stdin st) (next_object st).

Definition with_exit_stack (x : list Context_) (st : State) : State :=
  mkState (available_tools st) (available_prompts st) (sessions st) (session st) x
    (trace st) (model_calls st) (transport_calls st) (stdin st) (next_object st).

Definition with_trace (x : list event) (st : State) : State :=
  mkState (available_tools st) (available_prompts st) (sessions st) (session st)
    (exit_stack st) x (model_calls st) (transport_calls st) (stdin st) (next_object st).

Definition with_model_calls (x : nat) (st : State) : State :=
  mkState (available_tools st) (available_prompts st) (sessions st) (session st)
    (exit_stack st) (trace st) x (transport_calls st) (stdin st) (next_object st).

Definition with_transport_calls (x : nat) (st : State) : State :=
  mkState (available_tools st) (available_prompts st) (sessions st) (session st)
    (exit_stack st) (trace st) (model_calls st) x (stdin st) (next_object st).

Definition with_stdin (x : list string) (st : State) : State :=
  mkState (available_tools st) (available_prompts st) (sessions st) (session st)
    (exit_stack st) (trace st) (model_calls st) (transport_calls st) x (next_object st).

Definition with_next_object (x : nat) (st : State) : State :=
  mkState (available_tools st) (available_prompts st) (sessions st) (session st)
    (exit_stack st) (trace st) (model_calls st) (transport_calls st) (stdin st) x.

(** Append events to the trace. *)
Definition log (evs : list event) (st : State) : State :=
  with_trace (trace st ++ evs) st.

(** ** The monad *)

Definition M (A : Type) : Type := State -> result A * State.

Definition ret {A : Type} (a : A) : M A := fun st => (Ok a, st).

Definition bind {A B : Type} (m : M A) (f : A -> M B) : M B :=
  fun st =>
    match m st with
    | (Ok a, st') => f a st'
    | (Raise e, st') => (Raise e, st')
    | (OutOfFuel, st') => (OutOfFuel, st')
    end.

Definition raise {A : Type} (e : exn) : M A := fun st => (Raise e, st).

Definition out_of_fuel {A : Type} : M A := fun st => (OutOfFuel, st).

Definition gets {A : Type} (f : State -> A) : M A := fun st => (Ok (f st), st).

Definition modify (f : State -> State) : M unit := fun st => (Ok tt, f st).

(** [try: m  except Exception as e: handler e] *)
Definition try_except {A : Type} (m : M A) (handler : exn -> M A) : M A :=
  fun st =>
    match m st with
    | (Raise (Exception cls msg), st') => handler (Exception cls msg) st'
    | other => other
    end.

(** [try: m  finally: final] *)
Definition try_finally {A : Type} (m : M A) (final : M unit) : M A :=
  fun st =>
    match m st with
    | (OutOfFuel, st') => (OutOfFuel, st')
    | (r, st') =>
        match final st' with
        | (Ok _, st'') => (r, st'')
        | (Raise e, st'') => (Raise e, st'')
        | (OutOfFuel, st'') => (OutOfFuel, st'')
        end
    end.

Definition of_reply {A : Type} (r : exn + A) : M A :=
  match r with inl e => raise e | inr a => ret a end.

Notation "x <- m ;; k" := (bind m (fun x => k))
  (at level 61, m at next level, right associativity).
Notation "m ;; k" := (bind m (fun _ => k))
  (at level 61, right associativity).

(** [for x in l: body x] *)
Fixpoint for_each {A : Type} (l : list A) (body : A -> M unit) : M unit :=
  match l with
  | [] => ret tt
  | x :: l' => body x ;; for_each l' body
  end.

(** ** Console and remote requests *)

Definition print (line : string) : M unit := modify (log [Print line]).

(** [input(prompt)]; at end of input it raises EOFError. *)
Definition input (prompt : string) : M string :=
  modify (log [Input prompt]) ;;
  lines <- gets stdin ;;
  match lines with
  | [] => raise (Exception "EOFError" "EOF when reading a line")
  | line :: rest => modify (with_stdin rest) ;; ret line
  end.

(** One request over the transport: it is logged, counted, and answered by
    the next reply of the stream. *)
Definition transport {A : Type} (ev : event) (reply : nat -> exn + A) : M A :=
  k <- gets transport_calls ;;
  modify (fun st => with_transport_calls (S k) (log [ev] st)) ;;
  of_reply (reply k).

Definition CLAUDE_MODEL : string := "claude-opus-4-5-20251101".

(** [self.anthropic.messages.create(model=CLAUDE_MODEL, max_tokens=2024,
    tools=self.available_tools, messages=messages)], giving
    [response.content]. *)
Definition messages_create (messages : list Message) : M (list Block) :=
  tools <- gets available_tools ;;
  k <- gets model_calls ;;
  modify (fun st =>
    with_model_calls (S k) (log [MessagesCreate CLAUDE_MODEL 2024 tools messages] st)) ;;
  of_reply (model_reply k).

(** [self.session.call_tool(name=..., arguments=...)]: the attribute is read,
    then the call goes to that object. *)
Definition self_session_call_tool (name : string) (arguments : Json)
  : M CallToolResult :=
  attr <- gets session ;;
  match attr with
  | None =>
      raise (Exception "AttributeError"
               "'MCP_ChatBot' object has no attribute 'session'")
  | Some s => transport (CallTool s name arguments) call_tool_reply
  end.

(** ** process_query *)

Definition is_tool_use (c : Block) : bool :=
  match c with ToolUseBlock _ _ _ => true | _ => false end.

(** Lines 55-76: the loop over [tool_use_blocks]; [tool_results] is the list
    built so far.  [cast] checks nothing, so a block of another type would
    fail at [tool_block.id]. *)
Fixpoint call_tools (tool_use_blocks : list Block) (tool_results : list ToolResult)
  : M (list ToolResult) :=
  match tool_use_blocks with
  | [] => ret tool_results
  | ToolUseBlock tool_id tool_name tool_args :: rest =>
      print ("Calling tool: " ++ tool_name ++ " (ID: " ++ tool_id
             ++ ") with args: " ++ str_json tool_args) ;;
      result <- self_session_call_tool tool_name tool_args ;;
      call_tools rest
        (tool_results ++ [mkToolResult tool_id (str_result result)])
  | _ :: _ =>
      raise (Exception "AttributeError" "object has no attribute 'id'")
  end.

(** Lines 48-50 *)
Definition print_text_blocks (response_content : list Block) : M unit :=
  for_each response_content (fun c =>
    match c with
    | TextBlock t => print t
    | _ => ret tt
    end).

(** Lines 32-79: the [while True] loop, with [messages] as it stands at the
    top of the loop. *)
Fixpoint query_loop (fuel : nat) (messages : list Message) : M unit :=
  match fuel with
  | O => out_of_fuel
  | S fuel' =>
      response_content <- messages_create messages ;;
      let messages :=
        (messages ++ [mkMessage assistant (ContentBlocks response_content)])%list in
      let tool_use_blocks := filter is_tool_use response_content in
      match tool_use_blocks with
      | [] => print_text_blocks response_content
      | _ :: _ =>
          tool_results <- call_tools tool_use_blocks [] ;;
          query_loop fuel' (messages ++ [mkMessage user (ToolResults tool_results)])
      end
  end.

Definition process_query (fuel : nat) (query : string) : M unit :=
  query_loop fuel [mkMessage user (Str query)].

(** ** get_resource *)

(** Lines 87-94: the session of the first registered key, in the order of
    the dict, that starts with "papers://". *)
Fixpoint first_papers_session (items : dict Session) : option Session :=
  match items with
  | [] => None
  | (uri, sess) :: items' =>
      if startswith uri "papers://" then Some sess
      else first_papers_session items'
  end.

(** Lines 83-94.  A session object is truthy, so [not session] holds exactly
    when the lookup gave [None]. *)
Definition resolve_resource (registry : dict Session) (resource_uri : string)
  : option Session :=
  match dict_get registry resource_uri with
  | Some sess => Some sess
  | None =>
      if startswith resource_uri "papers://"
      then first_papers_session registry
      else None
  end.

Definition get_resource (resource_uri : string) : M unit :=
  registry <- gets sessions ;;
  match resolve_resource registry resource_uri with
  | None => print ("Resource '" ++ resource_uri ++ "' not found.")
  | Some sess =>
      try_except
        (result <- transport (ReadResource sess resource_uri)
                     read_resource_reply ;;
         match result with
         | Some (first :: _) =>
             print (nl ++ "Resource: " ++ resource_uri) ;;
             print "Content:" ;;
             print (text first)
         | _ => print "No content available."
         end)
        (fun e => print ("Error: " ++ str_exn e))
  end.

(** ** list_prompts *)

(** [arg.name if hasattr(arg, "name") else arg.get("name", "")] *)
Definition arg_name (arg : PromptArgument) : string :=
  match arg with
  | ArgObject name => name
  | ArgMapping fields =>
      match dict_get fields "name" with Some n => n | None => EmptyString end
  end.

Definition list_prompts : M unit :=
  prompts <- gets available_prompts ;;
  match prompts with
  | [] => print "No prompts available."
  | _ :: _ =>
      print (nl ++ "Available prompts:") ;;
      for_each prompts (fun p =>
        print ("- " ++ prompt_name p ++ ": " ++ str_option (prompt_description p)) ;;
        match prompt_arguments p with
        | Some (a :: args) =>
            print "  Arguments:" ;;
            for_each (a :: args) (fun arg => print ("    - " ++ arg_name arg))
        | _ => ret tt
        end)
  end.

(** ** execute_prompt *)

(** [getattr(i, "text", str(i))] *)
Definition part_to_text (i : Part) : string :=
  match part_text i with Some t => t | None => part_str i end.

(** Lines 137-142 *)
Definition prompt_text (content : PromptContent) : M string :=
  match content with
  | PlainText s => ret s
  | ContentObject text_attr items =>
      match text_attr with
      | Some (String c t) => ret (String c t)
      | _ =>
          match items with
          | Some parts => ret (join " " (map part_to_text parts))
          | None => raise (Exception "TypeError" "object is not iterable")
          end
      end
  end.

Definition execute_prompt (fuel : nat) (prompt_name : string) (args : dict string)
  : M unit :=
  registry <- gets sessions ;;
  match dict_get registry prompt_name with
  | None => print ("Prompt '" ++ prompt_name ++ "' not found.")
  | Some sess =>
      try_except
        (result <- transport (GetPrompt sess prompt_name args)
                     get_prompt_reply ;;
         match result with
         | Some (content :: _) =>
             text <- prompt_text content ;;
             print (nl ++ "Executing prompt '" ++ prompt_name ++ "'...") ;;
             process_query fuel text
         | _ => ret tt
         end)
        (fun e => print ("Error: " ++ str_exn e))
  end.

(** ** chat_loop *)

Definition banner : string :=
  nl ++ "🤖 MCP Chatbot | Commands: quit | @folders | @<topic> | /prompts | /prompt <name> <args>" ++ nl.

(** Lines 184-190: the loop over [parts[2:]]; [args] is the dict built so
    far.  Unpacking [key, value] needs exactly two pieces. *)
Fixpoint parse_args (tokens : list string) (args : dict string) : M (dict string) :=
  match tokens with
  | [] => ret args
  | arg :: rest =>
      if contains "="%char arg then
        match split1 "="%char arg with
        | [key; value] => parse_args rest (dict_set args key value)
        | _ => raise (Exception "ValueError" "not enough values to unpack")
        end
      else parse_args rest args
  end.

(** Lines 157-198: what the [try] block does with the stripped line.  It
    gives [true] where the source says [break], and [false] where it says
    [continue] or reaches the end of the block. *)
Definition dispatch (fuel : nat) (query : string) : M bool :=
  if (String.eqb query EmptyString || String.eqb (lower query) "quit")%bool
  then ret true
  else if startswith query "@" then
    let topic := tail query in
    let uri :=
      if String.eqb topic "folders" then "papers://folders"
      else "papers://" ++ topic in
    get_resource uri ;;
    ret false
  else if startswith query "/" then
    match split query with
    | [] => raise (Exception "IndexError" "list index out of range")
    | part0 :: parts' =>
        let command := lower part0 in
        if String.eqb command "/prompts" then
          list_prompts ;;
          ret false
        else if String.eqb command "/prompt" then
          match parts' with
          | [] =>
              print "Usage: /prompt <name> <arg1=value1> <arg2=value2>" ;;
              ret false
          | prompt_name :: tokens =>
              args <- parse_args tokens [] ;;
              execute_prompt fuel prompt_name args ;;
              ret false
          end
        else
          print ("Unknown command: " ++ command) ;;
          ret false
    end
  else
    process_query fuel query ;;
    ret false.

(** Lines 156-198: the body of the [try] block for one line of input. *)
Definition chat_turn (fuel : nat) : M bool :=
  line <- input "Query: " ;;
  dispatch fuel (strip line).

(** Lines 154-201: the [while True] loop. *)
Fixpoint chat_while (fuel : nat) : M unit :=
  match fuel with
  | O => out_of_fuel
  | S fuel' =>
      stop <- try_except (chat_turn fuel')
                (fun e => print (nl ++ "Error: " ++ str_exn e) ;; ret false) ;;
      if stop then ret tt else chat_while fuel'
  end.

Definition chat_loop (fuel : nat) : M unit :=
  print banner ;;
  chat_while fuel.

(** ** connect_to_server *)

Definition remote_research_url : string :=
  "https://mcp-remote-research-gsu1.onrender.com/sse".

(** [self.exit_stack.enter_async_context(sse_client(url=...))] *)
Definition enter_sse_client (url : string) : M unit :=
  transport (Enter (SseClient url)) sse_client_reply ;;
  modify (fun st => with_exit_stack (SseClient url :: exit_stack st) st).

(** [self.exit_stack.enter_async_context(ClientSession(read, write))]: a new
    object. *)
Definition enter_client_session : M Session :=
  s <- gets next_object ;;
  modify (fun st =>
    with_next_object (S s)
      (with_exit_stack (ClientSession s :: exit_stack st)
         (log [Enter (ClientSession s)] st))) ;;
  ret s.

(** [self.sessions[key] = sess] *)
Definition register (key : string) (sess : Session) : M unit :=
  modify (fun st => with_sessions (dict_set (sessions st) key sess) st).

(** Lines 216-247: initialize the connection, then register the tools, the
    prompts and the resources of [sess]. *)
Definition discover (sess : Session) : M unit :=
  transport (Initialize sess) initialize_reply ;;
  (* Register tools *)
  tools <- transport (ListTools sess) list_tools_reply ;;
  for_each tools (fun tool =>
    register (tool_name tool) sess ;;
    modify (fun st =>
      with_available_tools
        (available_tools st ++
           [mkTool (tool_name tool) (tool_description tool) (tool_inputSchema tool)])
        st)) ;;
  (* Register prompts *)
  prompts_response <- transport (ListPrompts sess) list_prompts_reply ;;
  match prompts_response with
  | Some (p :: ps) =>
      for_each (p :: ps) (fun prompt =>
        register (prompt_name prompt) sess ;;
        modify (fun st =>
          with_available_prompts
            (available_prompts st ++
               [mkPrompt (prompt_name prompt) (prompt_description prompt)
                  (prompt_arguments prompt)])
            st))
  | _ => ret tt
  end ;;
  (* Register resources *)
  resources_response <- transport (ListResources sess) list_resources_reply ;;
  match resources_response with
  | Some (r :: rs) => for_each (r :: rs) (fun uri => register uri sess)
  | _ => ret tt
  end.

Definition connect_to_server : M unit :=
  try_except
    (enter_sse_client remote_research_url ;;
     sess <- enter_client_session ;;
     modify (with_session (Some sess)) ;;
     discover sess)
    (fun e => print (nl ++ "Error connecting to server: " ++ str_exn e)).

(** ** cleanup and main *)

(** [self.exit_stack.aclose()]: what was entered is closed, last first. *)
Definition cleanup : M unit :=
  stack <- gets exit_stack ;;
  modify (with_exit_stack []) ;;
  for_each stack (fun c => modify (log [Close c])).

(** [__init__]: the attributes it sets; [session] is not one of them, so a
    new object has none. *)
Definition init (st : State) : State :=
  with_available_tools [] (with_available_prompts []
    (with_sessions [] (with_session None (with_exit_stack [] st)))).

(** [chatbot = MCP_ChatBot()] *)
Definition new_chatbot : M unit := modify init.

Definition main (fuel : nat) : M unit :=
  new_chatbot ;;
  try_finally (connect_to_server ;; chat_loop fuel) cleanup.

End Chatbot.

Notation "x <- m ;; k" := (bind m (fun x => k))
  (at level 61, m at next level, right associativity).
Notation "m ;; k" := (bind m (fun _ => k))
  (at level 61, right associativity).

(** ** Concrete scenarios

    Payloads kept as text, and three remote ends: one that plays the weather
    conversation of the end-to-end scenario, one whose endpoint cannot be
    reached, and one whose model API is down. *)

Definition text_payloads : Payloads :=
  mkPayloads string string (fun s => s) (fun s => s).

Section Scenarios.

#[local] Existing Instance text_payloads.

Definition weather_responses (k : nat) : list Block :=
  match k with
  | 0 => [ToolUseBlock "t1" "get_weather" "{'city': 'Paris'}"]
  | _ => [TextBlock "It is 18C and cloudy in Paris."]
  end.

Definition weather_remote : Remote :=
  mkRemote
    (fun k => inr (weather_responses k))
    (fun _ => inr tt)
    (fun _ => inr tt)
    (fun _ => inr [mkTool "get_weather" (Some "Weather of a city") "{}"])
    (fun _ => inr (Some [mkPrompt "summarize" None (Some [ArgObject "topic"])]))
    (fun _ => inr (Some ["papers://folders"]))
    (fun _ => inr "18C, cloudy")
    (fun _ => inr (Some [mkResourceContents "first"; mkResourceContents "second"]))
    (fun _ => inr (Some [PlainText "Summarize the papers."])).

Definition unreachable_remote : Remote :=
  mkRemote
    (fun _ => inr [TextBlock "Hello."])
    (fun _ => inl (ConnectionError "All connection attempts failed"))
    (fun _ => inr tt)
    (fun _ => inr [])
    (fun _ => inr None)
    (fun _ => inr None)
    (fun _ => inr "unused")
    (fun _ => inr None)
    (fun _ => inr None).

Definition model_down_remote : Remote :=
  mkRemote
    (fun _ => inl (ConnectionError "Connection error."))
    (fun _ => inr tt)
    (fun _ => inr tt)
    (fun _ => inr [])
    (fun _ => inr None)
    (fun _ => inr None)
    (fun _ => inr "unused")
    (fun _ => inr None)
    (fun _ => inr None).

(** A conversation whose first response asks for two tools, between
    texts. *)
Definition two_cities_responses (k : nat) : list Block :=
  match k with
  | 0 => [TextBlock "Let me look both up.";
          ToolUseBlock "t1" "get_weather" "{'city': 'Paris'}";
          TextBlock "And then Rome.";
          ToolUseBlock "t2" "get_weather" "{'city': 'Rome'}"]
  | _ => [TextBlock "Paris is cloudy, Rome is sunny."]
  end.

Definition two_cities_remote : Remote :=
  mkRemote
    (fun k => inr (two_cities_responses k))
    (fun _ => inr tt)
    (fun _ => inr tt)
    (fun _ => inr [])
    (fun _ => inr None)
    (fun _ => inr None)
    (fun k => match k with 0 => inr "18C, cloudy" | _ => inr "27C, sunny" end)
    (fun _ => inr None)
    (fun _ => inr None).

(** The weather conversation again, with a transport that fails on every
    tool call. *)
Definition tool_down_remote : Remote :=
  mkRemote
    (fun k => inr (weather_responses k))
    (fun _ => inr tt)
    (fun _ => inr tt)
    (fun _ => inr [])
    (fun _ => inr None)
    (fun _ => inr None)
    (fun _ => inl (ConnectionError "Connection closed"))
    (fun _ => inr None)
    (fun _ => inr None).

(** An endpoint that accepts the connection and fails the handshake. *)
Definition handshake_fails_remote : Remote :=
  mkRemote
    (fun _ => inr [TextBlock "Hello."])
    (fun _ => inr tt)
    (fun _ => inl (ConnectionError "Connection closed"))
    (fun _ => inr [])
    (fun _ => inr None)
    (fun _ => inr None)
    (fun _ => inr "unused")
    (fun _ => inr None)
    (fun _ => inr None).

(** The state of a process that has just started, with [lines] waiting on
    its standard input. *)
Definition start (lines : list string) : State :=
  mkState [] [] [] None [] [] 0 0 lines 0.

(** A chatbot connected through session [sess], with [registry] as its
    [sessions] dict. *)
Definition connected (sess : Session) (registry : dict Session)
  (lines : list string) : State :=
  mkState [] [] registry (Some sess) [ClientSession sess] [] 0 0 lines (S sess).

End Scenarios.

(** ** Accessors used to state the properties *)

Section Views.

Context {payloads : Payloads}.

(** The texts of the text blocks of a response, in block order. *)
Fixpoint text_blocks (response_content : list Block) : list string :=
  match response_content with
  | [] => []
  | TextBlock t :: rest => t :: text_blocks rest
  | _ :: rest => text_blocks rest
  end.

(** The identifiers of the tool-use requests of a response, in block order. *)
Fixpoint tool_use_ids (response_content : list Block) : list string :=
  match response_content with
  | [] => []
  | ToolUseBlock id _ _ :: rest => id :: tool_use_ids rest
  | _ :: rest => tool_use_ids rest
  end.

(** The line [process_query] prints before it dispatches each tool-use
    request of a response. *)
Fixpoint calling_lines (response_content : list Block) : list string :=
  match response_content with
  | [] => []
  | ToolUseBlock id name input :: rest =>
      ("Calling tool: " ++ name ++ " (ID: " ++ id ++ ") with args: "
       ++ str_json input) :: calling_lines rest
  | _ :: rest => calling_lines rest
  end.

(** What handling the tool-use requests of a response adds to the trace when
    [self.session] is [s]: for each request its line, then the call to [s]. *)
Fixpoint tool_round_events (s : Session) (response_content : list Block)
  : list event :=
  match response_content with
  | [] => []
  | ToolUseBlock id name input :: rest =>
      Print ("Calling tool: " ++ name ++ " (ID: " ++ id ++ ") with args: "
             ++ str_json input)
      :: CallTool s name input :: tool_round_events s rest
  | _ :: rest => tool_round_events s rest
  end.

(** Lines printed by the rounds [0 .. n-1] of a conversation whose k-th
    response is [responses k]. *)
Fixpoint calling_lines_upto (responses : nat -> list Block) (n : nat) : list string :=
  match n with
  | O => []
  | S n' => (calling_lines_upto responses n' ++ calling_lines (responses n'))%list
  end.

(** The registry after [self.sessions[key] = s] for each of [keys] in turn. *)
Definition register_all (s : Session) (keys : list string) (registry : dict Session)
  : dict Session :=
  fold_left (fun d key => dict_set d key s) keys registry.

(** The list inside a discovery response that may be [None]. *)
Definition listed {A : Type} (response : option (list A)) : list A :=
  match response with Some l => l | None => [] end.

(** The round of [process_query] that starts in [st] with the history
    [messages] and receives [response] has left the trace of [st']: after
    the request to the model, the first [n] tool-use requests of the
    response were each announced and sent to session [s], in order; [n] is
    at least one when there is a request, and all of them when every call
    returns. *)
Definition round_dispatched_to {remote : Remote} (s : Session) (st : State)
  (messages : list Message) (response : list Block) (st' : State) : Prop :=
  let requests := filter is_tool_use response in
  exists n rest,
    (1 <= length requests -> 1 <= n) /\
    n <= length requests /\
    ((forall i, i < length requests ->
        exists r, call_tool_reply (transport_calls st + i) = inr r) ->
     n = length requests) /\
    trace st'
    = (trace st
       ++ MessagesCreate CLAUDE_MODEL 2024 (available_tools st) messages
          :: tool_round_events s (firstn n requests) ++ rest)%list.

(** What [list_prompts] prints for one prompt: its line, then its declared
    arguments when it has some. *)
Definition prompt_lines (p : Prompt) : list string :=
  ("- " ++ prompt_name p ++ ": " ++ str_option (prompt_description p))
  :: match prompt_arguments p with
     | Some (a :: args) =>
         "  Arguments:" :: map (fun arg => "    - " ++ arg_name arg) (a :: args)
     | _ => []
     end.

(** What [list_prompts] prints for a list of prompts. *)
Definition prompts_listing (prompts : list Prompt) : list string :=
  match prompts with
  | [] => ["No prompts available."]
  | _ :: _ => (nl ++ "Available prompts:") :: flat_map prompt_lines prompts
  end.

(** A command ends without an exception that [except Exception] would
    catch. *)
Definition no_Exception {A : Type} (r : result A) : Prop :=
  match r with
  | Raise e => is_Exception e = false
  | _ => True
  end.

(** The tool calls in a trace. *)
Definition tool_calls (tr : list event) : list event :=
  filter (fun e => match e with CallTool _ _ _ => true | _ => false end) tr.

(** [m] takes every state to one related to it by [R], however it ends. *)
Definition respects (R : State -> State -> Prop) {A : Type} (m : M A) : Prop :=
  forall st, R st (snd (m st)).

(** The registry is left as it was. *)
Definition same_registry (st st' : State) : Prop :=
  sessions st' = sessions st.

(** The trace has only grown. *)
Definition extends (st st' : State) : Prop :=
  exists added, trace st' = (trace st ++ added)%list.

(** While [self.session] is [s]: it stays [s], and every tool call added to
    the trace went to [s]. *)
Definition dispatched_to (s : Session) (st st' : State) : Prop :=
  session st = Some s ->
  session st' = Some s /\
  forall s' name arguments,
    In (CallTool s' name arguments) (trace st') ->
    In (CallTool s' name arguments) (trace st) \/ s' = s.

(** Session [s] is what [self.session] is, and what every entry of the
    registry holds. *)
Definition registry_of (s : Session) (st : State) : Prop :=
  session st = Some s /\ Forall (fun entry => snd entry = s) (sessions st).

Definition keeps_registry_of (s : Session) (st st' : State) : Prop :=
  registry_of s st -> registry_of s st'.

(** A reply of a remote end as the outcome of the request. *)
Definition reply_result {A : Type} (r : exn + A) : result A :=
  match r with inl e => Raise e | inr a => Ok a end.

End Views.

(** * Properties *)

Section Properties.

Context {payloads : Payloads} {remote : Remote}.

(** ** Framing: what a command leaves alone *)

Section Frame.

Variable R : State -> State -> Prop.
Hypothesis R_refl : forall st, R st st.
Hypothesis R_trans : forall a b c, R a b -> R b c -> R a c.

Lemma respects_ret {A : Type} (a : A) : respects R (ret a).
Proof. intros st. apply R_refl. Qed.

Lemma respects_raise {A : Type} (e : exn) : respects R (@raise _ A e).
Proof. intros st. apply R_refl. Qed.

Lemma respects_out_of_fuel {A : Type} : respects R (@out_of_fuel _ A).
Proof. intros st. apply R_refl. Qed.

Lemma respects_gets {A : Type} (f : State -> A) : respects R (gets f).
Proof. intros st. apply R_refl. Qed.

Lemma respects_of_reply {A : Type} (r : exn + A) : respects R (of_reply r).
Proof. destruct r; intros st; apply R_refl. Qed.

Lemma respects_bind {A B : Type} (m : M A) (f : A -> M B) :
  respects R m -> (forall a, respects R (f a)) -> respects R (bind m f).
Proof.
  intros Hm Hf st. unfold bind.
  specialize (Hm st). destruct (m st) as [[a | e |] st1]; cbn in *; auto.
  apply R_trans with st1; auto. apply Hf.
Qed.

Lemma respects_try_except {A : Type} (m : M A) (handler : exn -> M A) :
  respects R m -> (forall e, respects R (handler e)) ->
  respects R (try_except m handler).
Proof.
  intros Hm Hh st. unfold try_except.
  specialize (Hm st). destruct (m st) as [[a | [cls msg | cls msg] |] st1];
    cbn in *; auto.
  apply R_trans with st1; auto. apply Hh.
Qed.

Lemma respects_try_finally {A : Type} (m : M A) (final : M unit) :
  respects R m -> respects R final -> respects R (try_finally m final).
Proof.
  intros Hm Hf st. unfold try_finally.
  specialize (Hm st). destruct (m st) as [[a | e |] st1]; cbn in *; auto;
    specialize (Hf st1); destruct (final st1) as [[u | e' |] st2]; cbn in *;
    apply R_trans with st1; auto.
Qed.

Lemma respects_for_each {A : Type} (l : list A) (body : A -> M unit) :
  (forall x, respects R (body x)) -> respects R (for_each l body).
Proof.
  intros Hb. induction l as [| x l IH]; cbn.
  - apply respects_ret.
  - apply respects_bind; auto.
Qed.

(** Where a compound command ends is related to where its first part
    ended. *)

Lemma bind_after {A B : Type} (m : M A) (f : A -> M B) st :
  (forall a, respects R (f a)) -> R (snd (m st)) (snd (bind m f st)).
Proof.
  intros Hf. unfold bind. destruct (m st) as [[a | e |] st1]; cbn; auto.
  apply Hf.
Qed.

Lemma try_except_after {A : Type} (m : M A) (handler : exn -> M A) st :
  (forall e, respects R (handler e)) ->
  R (snd (m st)) (snd (try_except m handler st)).
Proof.
  intros Hh. unfold try_except.
  destruct (m st) as [[a | [cls msg | cls msg] |] st1]; cbn; auto.
  apply Hh.
Qed.

Lemma try_finally_after {A : Type} (m : M A) (final : M unit) st :
  respects R final -> R (snd (m st)) (snd (try_finally m final st)).
Proof.
  intros Hf. unfold try_finally.
  destruct (m st) as [[a | e |] st1]; cbn; auto;
    specialize (Hf st1); destruct (final st1) as [[u | e' |] st2]; cbn in *;
    auto.
Qed.

(** The commands of the chatbot respect [R] as soon as its requests do. *)

Hypothesis R_print : forall line, respects R (print line).
Hypothesis R_input : forall prompt, respects R (input prompt).
Hypothesis R_messages_create :
  forall messages, respects R (messages_create messages).
Hypothesis R_call_tool :
  forall name arguments, respects R (self_session_call_tool name arguments).
Hypothesis R_read_resource :
  forall s uri, respects R (transport (ReadResource s uri) read_resource_reply).
Hypothesis R_get_prompt :
  forall s name args,
    respects R (transport (GetPrompt s name args) get_prompt_reply).

Ltac frame :=
  repeat (intros;
    match goal with
    | |- respects _ (bind _ _) => apply respects_bind
    | |- respects _ (ret _) => apply respects_ret
    | |- respects _ (raise _) => apply respects_raise
    | |- respects _ out_of_fuel => apply respects_out_of_fuel
    | |- respects _ (gets _) => apply respects_gets
    | |- respects _ (try_except _ _) => apply respects_try_except
    | |- respects _ (for_each _ _) => apply respects_for_each
    | |- respects _ (match ?x with _ => _ end) => destruct x
    | H : _ |- _ => solve [apply H]
    end).

Lemma respects_call_tools blocks acc : respects R (call_tools blocks acc).
Proof. revert acc. induction blocks as [| b blocks IH]; cbn; frame. Qed.

Lemma respects_print_text_blocks response_content :
  respects R (print_text_blocks response_content).
Proof. unfold print_text_blocks. frame. Qed.

Lemma respects_query_loop fuel messages : respects R (query_loop fuel messages).
Proof.
  revert messages. induction fuel as [| fuel IH]; cbn; frame.
  - apply respects_print_text_blocks.
  - apply respects_call_tools.
Qed.

Lemma respects_process_query fuel query : respects R (process_query fuel query).
Proof. apply respects_query_loop. Qed.

Lemma respects_get_resource uri : respects R (get_resource uri).
Proof. unfold get_resource. frame. Qed.

Lemma respects_list_prompts : respects R list_prompts.
Proof. unfold list_prompts. frame. Qed.

Lemma respects_prompt_text c : respects R (prompt_text c).
Proof. unfold prompt_text. frame. Qed.

Lemma respects_execute_prompt fuel name args :
  respects R (execute_prompt fuel name args).
Proof.
  unfold execute_prompt. frame; intros;
    first [ apply respects_prompt_text | apply respects_process_query ].
Qed.

Lemma respects_parse_args tokens args : respects R (parse_args tokens args).
Proof. revert args. induction tokens as [| t tokens IH]; cbn; frame. Qed.

Lemma respects_dispatch fuel query : respects R (dispatch fuel query).
Proof.
  unfold dispatch. frame; intros;
    first [ apply respects_get_resource | apply respects_list_prompts
          | apply respects_parse_args | apply respects_execute_prompt
          | apply respects_process_query ].
Qed.

Lemma respects_chat_turn fuel : respects R (chat_turn fuel).
Proof. unfold chat_turn. frame. intros line. apply respects_dispatch. Qed.

Lemma respects_chat_while fuel : respects R (chat_while fuel).
Proof.
  induction fuel as [| fuel IH]; cbn; frame; intros;
    apply respects_chat_turn.
Qed.

Lemma respects_chat_loop fuel : respects R (chat_loop fuel).
Proof. unfold chat_loop. frame. intros _. apply respects_chat_while. Qed.

End Frame.

(** ** What one request does to the state *)

Lemma print_run line st : print line st = (Ok tt, log [Print line] st).
Proof. reflexivity. Qed.

Lemma input_run prompt st :
  input prompt st =
  match stdin st with
  | [] => (Raise (Exception "EOFError" "EOF when reading a line"),
           log [Input prompt] st)
  | line :: rest => (Ok line, with_stdin rest (log [Input prompt] st))
  end.
Proof.
  unfold input, bind, modify, gets. cbn. destruct (stdin st); reflexivity.
Qed.

Lemma transport_run {A : Type} ev (reply : nat -> exn + A) st :
  transport ev reply st =
  (reply_result (reply (transport_calls st)),
   with_transport_calls (S (transport_calls st)) (log [ev] st)).
Proof.
  unfold transport, bind, gets, modify, of_reply. cbn.
  destruct (reply (transport_calls st)); reflexivity.
Qed.

Lemma messages_create_run messages st :
  messages_create messages st =
  (reply_result (model_reply (model_calls st)),
   with_model_calls (S (model_calls st))
     (log [MessagesCreate CLAUDE_MODEL 2024 (available_tools st) messages] st)).
Proof.
  unfold messages_create, bind, gets, modify, of_reply. cbn.
  destruct (model_reply (model_calls st)); reflexivity.
Qed.

Lemma self_session_call_tool_run name arguments st s :
  session st = Some s ->
  self_session_call_tool name arguments st =
  (reply_result (call_tool_reply (transport_calls st)),
   with_transport_calls (S (transport_calls st))
     (log [CallTool s name arguments] st)).
Proof.
  intros Hs. unfold self_session_call_tool, bind, gets. rewrite Hs.
  apply transport_run.
Qed.

Lemma self_session_call_tool_unset name arguments st :
  session st = None ->
  self_session_call_tool name arguments st =
  (Raise (Exception "AttributeError"
            "'MCP_ChatBot' object has no attribute 'session'"), st).
Proof.
  intros Hs. unfold self_session_call_tool, bind, gets. rewrite Hs. reflexivity.
Qed.

(** ** The registry is read-only outside [connect_to_server] *)

Lemma same_registry_refl st : same_registry st st.
Proof. reflexivity. Qed.

Lemma same_registry_trans a b c :
  same_registry a b -> same_registry b c -> same_registry a c.
Proof. unfold same_registry. congruence. Qed.

Lemma same_registry_print line : respects same_registry (print line).
Proof. intros st. reflexivity. Qed.

Lemma same_registry_input prompt : respects same_registry (input prompt).
Proof. intros st. rewrite input_run. destruct (stdin st); reflexivity. Qed.

Lemma same_registry_transport {A : Type} ev (reply : nat -> exn + A) :
  respects same_registry (transport ev reply).
Proof. intros st. rewrite transport_run. reflexivity. Qed.

Lemma same_registry_messages_create messages :
  respects same_registry (messages_create messages).
Proof. intros st. rewrite messages_create_run. reflexivity. Qed.

Lemma same_registry_call_tool name arguments :
  respects same_registry (self_session_call_tool name arguments).
Proof.
  intros st. destruct (session st) as [s |] eqn:Hs.
  - rewrite (self_session_call_tool_run _ _ _ s Hs). reflexivity.
  - rewrite self_session_call_tool_unset by assumption. reflexivity.
Qed.

Lemma same_registry_cleanup : respects same_registry cleanup.
Proof.
  unfold cleanup.
  apply respects_bind; [exact same_registry_trans | now intros st | intros stack].
  apply respects_bind; [exact same_registry_trans | now intros st | intros _].
  apply respects_for_each;
    [exact same_registry_refl | exact same_registry_trans | now intros c st].
Qed.

(** ** The trace only grows *)

Lemma extends_refl st : extends st st.
Proof. exists []. symmetry. apply app_nil_r. Qed.

Lemma extends_trans a b c : extends a b -> extends b c -> extends a c.
Proof.
  intros [x Hx] [y Hy]. exists (x ++ y)%list.
  rewrite Hy, Hx. symmetry. apply app_assoc.
Qed.

Lemma extends_print line : respects extends (print line).
Proof. intros st. exists [Print line]. reflexivity. Qed.

Lemma extends_input prompt : respects extends (input prompt).
Proof.
  intros st. rewrite input_run. exists [Input prompt].
  destruct (stdin st); reflexivity.
Qed.

Lemma extends_transport {A : Type} ev (reply : nat -> exn + A) :
  respects extends (transport ev reply).
Proof. intros st. rewrite transport_run. exists [ev]. reflexivity. Qed.

Lemma extends_messages_create messages :
  respects extends (messages_create messages).
Proof.
  intros st. rewrite messages_create_run. eexists. cbn. reflexivity.
Qed.

Lemma extends_call_tool name arguments :
  respects extends (self_session_call_tool name arguments).
Proof.
  intros st. destruct (session st) as [s |] eqn:Hs.
  - rewrite (self_session_call_tool_run _ _ _ s Hs). eexists. cbn. reflexivity.
  - rewrite self_session_call_tool_unset by assumption. apply extends_refl.
Qed.

(** ** Tool calls go where [self.session] points *)

Lemma dispatched_to_refl s st : dispatched_to s st st.
Proof. intros H. split; auto. Qed.

Lemma dispatched_to_trans s a b c :
  dispatched_to s a b -> dispatched_to s b c -> dispatched_to s a c.
Proof.
  intros Hab Hbc H. destruct (Hab H) as [H1 H2]. destruct (Hbc H1) as [H3 H4].
  split; auto. intros s' name arguments Hin.
  destruct (H4 _ _ _ Hin) as [Hb | ->]; auto.
Qed.

Lemma dispatched_to_added s st st' added :
  session st' = session st ->
  trace st' = (trace st ++ added)%list ->
  (forall s' name arguments, In (CallTool s' name arguments) added -> s' = s) ->
  dispatched_to s st st'.
Proof.
  intros Hs Ht Hadded H. split; [congruence |].
  intros s' name arguments Hin. rewrite Ht in Hin.
  apply in_app_or in Hin as [Hin | Hin]; eauto.
Qed.

Lemma dispatched_to_print s line : respects (dispatched_to s) (print line).
Proof.
  intros st. apply dispatched_to_added with (added := [Print line]); auto.
  intros s' name arguments [H | []]. discriminate.
Qed.

Lemma dispatched_to_input s prompt : respects (dispatched_to s) (input prompt).
Proof.
  intros st. rewrite input_run.
  apply dispatched_to_added with (added := [Input prompt]).
  - destruct (stdin st); reflexivity.
  - destruct (stdin st); reflexivity.
  - intros s' name arguments [H | []]. discriminate.
Qed.

Lemma dispatched_to_messages_create s messages :
  respects (dispatched_to s) (messages_create messages).
Proof.
  intros st. rewrite messages_create_run.
  eapply dispatched_to_added; [reflexivity | reflexivity |].
  intros s' name arguments [H | []]. discriminate.
Qed.

Lemma dispatched_to_call_tool s name arguments :
  respects (dispatched_to s) (self_session_call_tool name arguments).
Proof.
  intros st Hs. rewrite (self_session_call_tool_run _ _ _ s Hs).
  revert Hs. apply dispatched_to_added with (added := [CallTool s name arguments]);
    auto.
  intros s' name' arguments' [H | []]. congruence.
Qed.

Lemma dispatched_to_read_resource s sess uri :
  respects (dispatched_to s) (transport (ReadResource sess uri) read_resource_reply).
Proof.
  intros st. rewrite transport_run.
  eapply dispatched_to_added; [reflexivity | reflexivity |].
  intros s' name arguments [H | []]. discriminate.
Qed.

Lemma dispatched_to_get_prompt s sess name args :
  respects (dispatched_to s) (transport (GetPrompt sess name args) get_prompt_reply).
Proof.
  intros st. rewrite transport_run.
  eapply dispatched_to_added; [reflexivity | reflexivity |].
  intros s' name' arguments [H | []]. discriminate.
Qed.

(** ** Instances of the frame lemmas *)

Lemma chat_loop_same_registry fuel : respects same_registry (chat_loop fuel).
Proof.
  apply respects_chat_loop;
    first [ exact same_registry_refl | exact same_registry_trans
          | exact same_registry_print | exact same_registry_input
          | exact same_registry_messages_create | exact same_registry_call_tool
          | intros; apply same_registry_transport ].
Qed.

Lemma chat_loop_extends fuel : respects extends (chat_loop fuel).
Proof.
  apply respects_chat_loop;
    first [ exact extends_refl | exact extends_trans
          | exact extends_print | exact extends_input
          | exact extends_messages_create | exact extends_call_tool
          | intros; apply extends_transport ].
Qed.

Lemma process_query_dispatched_to s fuel query :
  respects (dispatched_to s) (process_query fuel query).
Proof.
  apply respects_process_query;
    first [ exact (dispatched_to_refl s) | exact (dispatched_to_trans s)
          | exact (dispatched_to_print s)
          | exact (dispatched_to_messages_create s)
          | exact (dispatched_to_call_tool s) ].
Qed.

(** Two states built from the same one by the same updates are equal once
    the appends to the trace are put in the same form. *)
Ltac same_state :=
  unfold log, with_trace, with_stdin, with_transport_calls, with_model_calls;
  cbn; rewrite <- ?app_assoc; reflexivity.

(** ** Resources *)

(** C5: with [papers://folders] as the only key of the registry, a lookup of
    [papers://quantum] falls back to the session registered for
    [papers://folders], and the read goes to it; a lookup of [other://x]
    finds no session, prints the "not found" line and sends nothing over the
    transport. *)
Theorem get_resource_papers_fallback st s :
  sessions st = [("papers://folders", s)] ->
  resolve_resource (sessions st) "papers://folders" = Some s /\
  resolve_resource (sessions st) "papers://quantum" = Some s /\
  (exists answer,
     trace (snd (get_resource "papers://quantum" st))
     = (trace st ++ ReadResource s "papers://quantum" :: answer)%list) /\
  resolve_resource (sessions st) "other://x" = None /\
  get_resource "other://x" st
  = (Ok tt, log [Print "Resource 'other://x' not found."] st) /\
  transport_calls (snd (get_resource "other://x" st)) = transport_calls st.
Proof.
  intros Hreg. repeat split.
  - rewrite Hreg. reflexivity.
  - rewrite Hreg. reflexivity.
  - unfold get_resource, bind, gets. rewrite Hreg.
    change (resolve_resource [("papers://folders", s)] "papers://quantum")
      with (Some s).
    unfold try_except. rewrite transport_run.
    destruct (read_resource_reply (transport_calls st))
      as [[cls msg | cls msg] | [[| first others] |]];
      cbn; eexists; rewrite <- ?app_assoc; reflexivity.
  - rewrite Hreg. reflexivity.
  - unfold get_resource, bind, gets. rewrite Hreg. reflexivity.
  - unfold get_resource, bind, gets. rewrite Hreg. reflexivity.
Qed.

(** C10: when the read succeeds with a non-empty content list, what
    [get_resource] prints is the header, the line "Content:" and the text of
    the first element; the other elements do not show in the outcome. *)
Theorem get_resource_prints_first_content st uri s first others :
  resolve_resource (sessions st) uri = Some s ->
  read_resource_reply (transport_calls st) = inr (Some (first :: others)) ->
  get_resource uri st
  = (Ok tt,
     with_transport_calls (S (transport_calls st))
       (log [ReadResource s uri;
             Print (nl ++ "Resource: " ++ uri);
             Print "Content:";
             Print (text first)] st)).
Proof.
  intros Hres Hreply.
  unfold get_resource, bind, gets. rewrite Hres.
  unfold try_except. rewrite transport_run, Hreply. cbn.
  f_equal. same_state.
Qed.

(** ** The command dispatcher *)

(** C7: on a line that is empty once stripped, or that is "quit" in any
    mix of cases, the chat loop returns at once: beyond its banner and the
    prompt nothing is added to the trace, and no request is counted for the
    model API or for the transport. *)
Theorem chat_loop_quit_or_empty fuel st line rest :
  stdin st = line :: rest ->
  strip line = EmptyString \/ lower (strip line) = "quit" ->
  let st' := with_stdin rest (log [Print banner; Input "Query: "] st) in
  chat_loop (S fuel) st = (Ok tt, st') /\
  trace st' = (trace st ++ [Print banner; Input "Query: "])%list /\
  forallb (fun e => negb (is_model_call e || is_transport_call e))
    [Print banner; Input "Query: "] = true /\
  model_calls st' = model_calls st /\
  transport_calls st' = transport_calls st.
Proof.
  intros Hin Hline st'. repeat split.
  unfold chat_loop, bind. rewrite print_run. cbn [chat_while].
  unfold bind, try_except, chat_turn, dispatch, bind. rewrite input_run.
  change (stdin (log [Print banner] st)) with (stdin st). rewrite Hin.
  assert (Hstop : (String.eqb (strip line) EmptyString
                   || String.eqb (lower (strip line)) "quit")%bool = true).
  { destruct Hline as [-> | ->]; [reflexivity | apply orb_true_r]. }
  rewrite Hstop. cbn. f_equal. subst st'. same_state.
Qed.

Lemma contains_sep key value :
  contains "="%char (key ++ String "="%char value) = true.
Proof.
  induction key as [| c key IH]; cbn.
  - reflexivity.
  - destruct (Ascii.eqb c "="%char); auto.
Qed.

Lemma split1_first key value :
  contains "="%char key = false ->
  split1 "="%char (key ++ String "="%char value) = [key; value].
Proof.
  induction key as [| c key IH]; cbn; intros Hkey.
  - reflexivity.
  - destruct (Ascii.eqb c "="%char); [discriminate |].
    rewrite (IH Hkey). reflexivity.
Qed.

(** C6: the trailing tokens of a [/prompt] line are read one by one: a token
    without [=] leaves the arguments as they are, a token [key=value], cut at
    its first [=], sets [key] to [value]; the two command lines of the
    specification give [{topic: ai, year: 2024}] and [{topic: ai}]. *)
Theorem parse_args_key_value :
  (forall token tokens args,
     contains "="%char token = false ->
     parse_args (token :: tokens) args = parse_args tokens args) /\
  (forall key value tokens args,
     contains "="%char key = false ->
     parse_args ((key ++ "=" ++ value) :: tokens) args
     = parse_args tokens (dict_set args key value)) /\
  parse_args (skipn 2 (split "/prompt summarize topic=ai year=2024")) []
  = ret [("topic", "ai"); ("year", "2024")] /\
  parse_args (skipn 2 (split "/prompt summarize topic=ai malformed")) []
  = ret [("topic", "ai")].
Proof.
  repeat split.
  - intros token tokens args Htoken. cbn. rewrite Htoken. reflexivity.
  - intros key value tokens args Hkey. cbn [parse_args].
    change (key ++ "=" ++ value) with (key ++ String "="%char value).
    rewrite contains_sep, (split1_first _ _ Hkey). reflexivity.
Qed.

(** ** The conversation engine *)

(** One tool-use request, while [self.session] is [s]: the line is printed,
    then the call is sent to [s]. *)
Lemma call_tools_step st s tool_id name input rest acc :
  session st = Some s ->
  call_tools (ToolUseBlock tool_id name input :: rest) acc st
  = (result <- of_reply (call_tool_reply (transport_calls st)) ;;
     call_tools rest (acc ++ [mkToolResult tool_id (str_result result)]))
      (with_transport_calls (S (transport_calls st))
         (log [Print ("Calling tool: " ++ name ++ " (ID: " ++ tool_id
                      ++ ") with args: " ++ str_json input);
               CallTool s name input] st)).
Proof.
  intros Hs. cbn [call_tools]. unfold bind at 1. rewrite print_run.
  unfold bind at 1.
  rewrite (self_session_call_tool_run _ _ _ s) by exact Hs.
  unfold bind, of_reply.
  change (transport_calls (log _ st)) with (transport_calls st).
  destruct (call_tool_reply (transport_calls st)) as [e | result]; cbn;
    f_equal; same_state.
Qed.

Lemma printed_app tr1 tr2 : printed (tr1 ++ tr2) = (printed tr1 ++ printed tr2)%list.
Proof.
  induction tr1 as [| e tr1 IH]; cbn; [reflexivity |].
  destruct e; cbn; rewrite ?IH; reflexivity.
Qed.

Lemma printed_map_Print lines : printed (map Print lines) = lines.
Proof. induction lines as [| l lines IH]; cbn; congruence. Qed.

Lemma printed_tool_round_events s blocks :
  printed (tool_round_events s blocks) = calling_lines blocks.
Proof.
  induction blocks as [| b blocks IH]; cbn; [reflexivity |].
  destruct b; cbn; rewrite ?IH; reflexivity.
Qed.

Lemma tool_use_ids_filter blocks :
  tool_use_ids (filter is_tool_use blocks) = tool_use_ids blocks.
Proof.
  induction blocks as [| b blocks IH]; cbn; [reflexivity |].
  destruct b; cbn; rewrite ?IH; reflexivity.
Qed.

Lemma calling_lines_filter blocks :
  calling_lines (filter is_tool_use blocks) = calling_lines blocks.
Proof.
  induction blocks as [| b blocks IH]; cbn; [reflexivity |].
  destruct b; cbn; rewrite ?IH; reflexivity.
Qed.

Lemma log_nil st : log [] st = st.
Proof. destruct st. unfold log, with_trace. cbn. rewrite app_nil_r. reflexivity. Qed.

Lemma print_text_blocks_run response_content st :
  print_text_blocks response_content st
  = (Ok tt, log (map Print (text_blocks response_content)) st).
Proof.
  unfold print_text_blocks. revert st.
  induction response_content as [| c rest IH]; intros st; cbn [for_each].
  - cbn. rewrite log_nil. reflexivity.
  - unfold bind. destruct c; cbn [text_blocks map].
    + rewrite print_run, IH. f_equal. same_state.
    + cbn. apply IH.
    + cbn. apply IH.
Qed.

(** A round of tool calls that all return: every request is answered, in
    order, and the results are added to those built so far. *)
Lemma call_tools_ok blocks : forall acc st s,
  session st = Some s ->
  Forall (fun b => is_tool_use b = true) blocks ->
  (forall i, i < length blocks ->
     exists r, call_tool_reply (transport_calls st + i) = inr r) ->
  exists tool_results,
    call_tools blocks acc st
    = (Ok (acc ++ tool_results)%list,
       with_transport_calls (transport_calls st + length blocks)
         (log (tool_round_events s blocks) st)) /\
    length tool_results = length blocks /\
    map tool_use_id tool_results = tool_use_ids blocks.
Proof.
  induction blocks as [| b blocks IH]; intros acc st s Hs Hall Hreply.
  - exists []. cbn. rewrite app_nil_r, Nat.add_0_r, log_nil.
    repeat split. destruct st; reflexivity.
  - inversion Hall as [| b' blocks' Hb Hrest]; subst.
    destruct b as [t | tool_id name input |]; try discriminate.
    rewrite (call_tools_step st s) by exact Hs.
    destruct (Hreply 0) as [r Hr]; [cbn; lia |].
    rewrite Nat.add_0_r in Hr. unfold bind at 1. rewrite Hr. cbn [of_reply ret].
    destruct (IH (acc ++ [mkToolResult tool_id (str_result r)])%list
                (with_transport_calls (S (transport_calls st))
                   (log [Print ("Calling tool: " ++ name ++ " (ID: " ++ tool_id
                                ++ ") with args: " ++ str_json input);
                         CallTool s name input] st)) s)
      as (results & Hrun & Hlen & Hids).
    + exact Hs.
    + exact Hrest.
    + intros i Hi. cbn [transport_calls with_transport_calls].
      destruct (Hreply (S i)) as [r' Hr']; [cbn; lia |].
      exists r'. rewrite <- Hr'. f_equal. lia.
    + exists (mkToolResult tool_id (str_result r) :: results).
      split; [| split].
      * rewrite Hrun. rewrite <- app_assoc. cbn [app]. f_equal.
        cbn [length tool_round_events].
        replace (transport_calls st + S (length blocks))
          with (S (transport_calls st) + length blocks) by lia.
        same_state.
      * cbn. congruence.
      * cbn. congruence.
Qed.

Lemma filter_is_tool_use_all blocks :
  Forall (fun b => is_tool_use b = true) (filter is_tool_use blocks).
Proof.
  apply Forall_forall. intros b Hb. apply filter_In in Hb. tauto.
Qed.

(** A round of [query_loop] whose response asks for tools, all answered. *)
Lemma query_loop_tool_round messages st s response :
  session st = Some s ->
  model_reply (model_calls st) = inr response ->
  1 <= length (filter is_tool_use response) ->
  (forall i, i < length (filter is_tool_use response) ->
     exists r, call_tool_reply (transport_calls st + i) = inr r) ->
  exists tool_results,
    length tool_results = length (filter is_tool_use response) /\
    map tool_use_id tool_results = tool_use_ids response /\
    forall fuel,
      query_loop (S fuel) messages st
      = query_loop fuel
          (messages ++ [mkMessage assistant (ContentBlocks response);
                        mkMessage user (ToolResults tool_results)])
          (with_transport_calls
             (transport_calls st + length (filter is_tool_use response))
             (log (tool_round_events s response)
                (with_model_calls (S (model_calls st))
                   (log [MessagesCreate CLAUDE_MODEL 2024 (available_tools st)
                           messages] st)))).
Proof.
  intros Hs Hmodel Hn Hreply.
  set (st1 := with_model_calls (S (model_calls st))
                (log [MessagesCreate CLAUDE_MODEL 2024 (available_tools st)
                        messages] st)).
  destruct (call_tools_ok (filter is_tool_use response) [] st1 s)
    as (tool_results & Hrun & Hlen & Hids).
  - exact Hs.
  - apply filter_is_tool_use_all.
  - exact Hreply.
  - exists tool_results. rewrite tool_use_ids_filter in Hids.
    split; [exact Hlen | split; [exact Hids |]].
    intros fuel. cbn [query_loop]. unfold bind at 1.
    rewrite messages_create_run, Hmodel. cbn [reply_result]. fold st1.
    destruct (filter is_tool_use response) as [| b blocks] eqn:Hfilter;
      [cbn in Hn; lia |].
    unfold bind at 1. rewrite Hrun. cbn [app].
    rewrite <- app_assoc. cbn [app].
    f_equal. rewrite <- Hfilter.
    change (transport_calls st1) with (transport_calls st).
    f_equal. unfold log. f_equal. f_equal.
    clear. induction response as [| c rest IH]; cbn; [reflexivity |].
    destruct c; cbn; rewrite ?IH; reflexivity.
Qed.

Ltac extends_frame :=
  first [ exact extends_refl | exact extends_trans
        | exact extends_print | exact extends_input
        | exact extends_messages_create | exact extends_call_tool
        | intros; apply extends_transport ].

(** A round of [query_loop] starts by sending the history to the model. *)
Lemma query_loop_requests fuel messages st :
  exists rest,
    trace (snd (query_loop (S fuel) messages st))
    = (trace st
       ++ MessagesCreate CLAUDE_MODEL 2024 (available_tools st) messages
          :: rest)%list.
Proof.
  assert (H : extends (snd (messages_create messages st))
                (snd (query_loop (S fuel) messages st))).
  { cbn [query_loop]. apply bind_after; [exact extends_refl |].
    intros response. destruct (filter is_tool_use response).
    - apply respects_print_text_blocks; extends_frame.
    - apply respects_bind; [exact extends_trans | |].
      + apply respects_call_tools; extends_frame.
      + intros tool_results. apply respects_query_loop; extends_frame. }
  destruct H as [rest Hrest]. exists rest.
  rewrite Hrest, messages_create_run. cbn. rewrite <- app_assoc. reflexivity.
Qed.

(** C2 (amended): in a round whose response holds N >= 1 tool-use requests,
    when [self.session] is set and each of the N calls returns, the history
    that goes into the next round, and that the next request to the model
    carries, is the old one, the assistant message, and one user message
    after it; that message holds N tool results, whose identifiers are those
    of the requests in the order of the response. *)
Theorem tool_round_appends_one_results_message messages st s response :
  session st = Some s ->
  model_reply (model_calls st) = inr response ->
  1 <= length (filter is_tool_use response) ->
  (forall i, i < length (filter is_tool_use response) ->
     exists r, call_tool_reply (transport_calls st + i) = inr r) ->
  let st' :=
    with_transport_calls
      (transport_calls st + length (filter is_tool_use response))
      (log (tool_round_events s response)
         (with_model_calls (S (model_calls st))
            (log [MessagesCreate CLAUDE_MODEL 2024 (available_tools st) messages]
               st))) in
  exists tool_results,
    length tool_results = length (filter is_tool_use response) /\
    map tool_use_id tool_results = tool_use_ids response /\
    (forall fuel,
       query_loop (S fuel) messages st
       = query_loop fuel
           (messages ++ [mkMessage assistant (ContentBlocks response);
                         mkMessage user (ToolResults tool_results)])
           st') /\
    (forall fuel, exists rest,
       trace (snd (query_loop (S (S fuel)) messages st))
       = (trace st'
          ++ MessagesCreate CLAUDE_MODEL 2024 (available_tools st)
               (messages ++ [mkMessage assistant (ContentBlocks response);
                             mkMessage user (ToolResults tool_results)])
             :: rest)%list).
Proof.
  intros Hs Hmodel Hn Hreply st'.
  destruct (query_loop_tool_round messages st s response Hs Hmodel Hn Hreply)
    as (tool_results & Hlen & Hids & Hround).
  exists tool_results. split; [exact Hlen |]. split; [exact Hids |].
  split; [exact Hround |].
  intros fuel. rewrite Hround.
  apply (query_loop_requests fuel _ st').
Qed.

(** A round of [query_loop] whose response asks for no tool. *)
Lemma query_loop_final_round fuel messages st response :
  model_reply (model_calls st) = inr response ->
  filter is_tool_use response = [] ->
  query_loop (S fuel) messages st
  = (Ok tt,
     log (map Print (text_blocks response))
       (with_model_calls (S (model_calls st))
          (log [MessagesCreate CLAUDE_MODEL 2024 (available_tools st) messages]
             st))).
Proof.
  intros Hmodel Hnone. cbn [query_loop]. unfold bind.
  rewrite messages_create_run, Hmodel. cbn [reply_result]. rewrite Hnone.
  apply print_text_blocks_run.
Qed.

Lemma calling_lines_upto_shift responses m :
  calling_lines_upto responses (S m)
  = (calling_lines (responses 0)
     ++ calling_lines_upto (fun k => responses (S k)) m)%list.
Proof.
  induction m as [| m IH].
  - cbn. rewrite app_nil_r. reflexivity.
  - change (calling_lines_upto responses (S (S m)))
      with (calling_lines_upto responses (S m)
            ++ calling_lines (responses (S m)))%list.
    rewrite IH. cbn [calling_lines_upto]. rewrite app_assoc. reflexivity.
Qed.

(** The loop ends at the first response that asks for no tool; until then
    each round prints the lines of its tool calls. *)
Lemma query_loop_terminates n : forall responses messages st s,
  session st = Some s ->
  (forall k, exists r, call_tool_reply k = inr r) ->
  (forall k, model_reply (model_calls st + k) = inr (responses k)) ->
  filter is_tool_use (responses n) = [] ->
  exists m st',
    filter is_tool_use (responses m) = [] /\
    (forall k, k < m -> filter is_tool_use (responses k) <> []) /\
    (forall fuel, m < fuel -> query_loop fuel messages st = (Ok tt, st')) /\
    printed (trace st')
    = (printed (trace st) ++ calling_lines_upto responses m
       ++ text_blocks (responses m))%list.
Proof.
  assert (Hfinal : forall responses messages st,
    (forall k, model_reply (model_calls st + k) = inr (responses k)) ->
    filter is_tool_use (responses 0) = [] ->
    exists m st',
      filter is_tool_use (responses m) = [] /\
      (forall k, k < m -> filter is_tool_use (responses k) <> []) /\
      (forall fuel, m < fuel -> query_loop fuel messages st = (Ok tt, st')) /\
      printed (trace st')
      = (printed (trace st) ++ calling_lines_upto responses m
         ++ text_blocks (responses m))%list).
  { intros responses messages st Hmodel Hnone.
    exists 0. eexists. split; [exact Hnone | split; [intros k Hk; lia | split]].
    - intros fuel Hfuel. destruct fuel as [| fuel]; [lia |].
      apply query_loop_final_round; [| exact Hnone].
      rewrite <- (Hmodel 0). f_equal. lia.
    - cbn. rewrite !printed_app, printed_map_Print. cbn.
      rewrite app_nil_r. reflexivity. }
  induction n as [| n IH]; intros responses messages st s Hs Htools Hmodel Hnone.
  - apply Hfinal; assumption.
  - destruct (filter is_tool_use (responses 0)) as [| b blocks] eqn:Hfirst.
    + apply Hfinal; assumption.
    + destruct (query_loop_tool_round messages st s (responses 0))
        as (tool_results & _ & _ & Hround).
      * exact Hs.
      * rewrite <- (Hmodel 0). f_equal. lia.
      * rewrite Hfirst. cbn. lia.
      * intros i _. apply Htools.
      * match type of Hround with
        | forall fuel, _ = query_loop fuel ?msgs ?st1 =>
            destruct (IH (fun k => responses (S k)) msgs st1 s)
              as (m & st' & Hm & Hbefore & Hrun & Hprinted)
        end.
        -- exact Hs.
        -- exact Htools.
        -- intros k. cbn. rewrite <- (Hmodel (S k)). f_equal. lia.
        -- exact Hnone.
        -- exists (S m), st'. split; [exact Hm | split; [| split]].
           ++ intros k Hk. destruct k as [| k].
              ** rewrite Hfirst. discriminate.
              ** apply Hbefore. lia.
           ++ intros fuel Hfuel. destruct fuel as [| fuel]; [lia |].
              rewrite Hround. apply Hrun. lia.
           ++ rewrite Hprinted. cbn [trace with_transport_calls log with_trace
                                     with_model_calls].
              rewrite !printed_app, printed_tool_round_events.
              rewrite calling_lines_upto_shift. cbn [printed].
              rewrite app_nil_r, <- !app_assoc. reflexivity.
Qed.

(** ** The registry after [connect_to_server] *)

Lemma try_except_bind_ok {A B : Type} (m : M A) (f : A -> M B) handler st a st1 :
  m st = (Ok a, st1) ->
  try_except (bind m f) handler st = try_except (f a) handler st1.
Proof. intros Hm. unfold try_except, bind. rewrite Hm. reflexivity. Qed.

Lemma try_except_bind_caught {A B : Type} (m : M A) (f : A -> M B) handler
  st cls msg st1 :
  m st = (Raise (Exception cls msg), st1) ->
  try_except (bind m f) handler st = handler (Exception cls msg) st1.
Proof. intros Hm. unfold try_except, bind. rewrite Hm. reflexivity. Qed.

Lemma try_except_bind_uncaught {A B : Type} (m : M A) (f : A -> M B) handler
  st cls msg st1 :
  m st = (Raise (BaseException cls msg), st1) ->
  try_except (bind m f) handler st = (Raise (BaseException cls msg), st1).
Proof. intros Hm. unfold try_except, bind. rewrite Hm. reflexivity. Qed.

Lemma enter_sse_client_run url st :
  enter_sse_client url st =
  match sse_client_reply (transport_calls st) with
  | inl e =>
      (Raise e,
       with_transport_calls (S (transport_calls st))
         (log [Enter (SseClient url)] st))
  | inr _ =>
      (Ok tt,
       with_exit_stack (SseClient url :: exit_stack st)
         (with_transport_calls (S (transport_calls st))
            (log [Enter (SseClient url)] st)))
  end.
Proof.
  unfold enter_sse_client, bind. rewrite transport_run.
  destruct (sse_client_reply (transport_calls st)) as [e | []]; reflexivity.
Qed.

Lemma keeps_registry_of_refl s st : keeps_registry_of s st st.
Proof. intros H. exact H. Qed.

Lemma keeps_registry_of_trans s a b c :
  keeps_registry_of s a b -> keeps_registry_of s b c -> keeps_registry_of s a c.
Proof. unfold keeps_registry_of. auto. Qed.

Lemma keeps_registry_of_modify s (f : State -> State) :
  (forall st, session (f st) = session st /\ sessions (f st) = sessions st) ->
  respects (keeps_registry_of s) (modify f).
Proof.
  intros Hf st [Hs Hall]. destruct (Hf st) as [H1 H2].
  split; cbn; congruence.
Qed.

Lemma keeps_registry_of_transport {A : Type} s ev (reply : nat -> exn + A) :
  respects (keeps_registry_of s) (transport ev reply).
Proof. intros st H. rewrite transport_run. exact H. Qed.

Lemma dict_set_Forall {V : Type} (P : string * V -> Prop) d k v :
  Forall P d -> (forall k', P (k', v)) -> Forall P (dict_set d k v).
Proof.
  intros Hd Hv. induction Hd as [| [k' v'] d Hhead Htail IH]; cbn.
  - constructor; [apply Hv | constructor].
  - destruct (String.eqb k' k).
    + constructor; [apply Hv | exact Htail].
    + constructor; [exact Hhead | exact IH].
Qed.

Lemma keeps_registry_of_register s key :
  respects (keeps_registry_of s) (register key s).
Proof.
  intros st [Hs Hall]. split; [exact Hs |]. cbn.
  apply dict_set_Forall; auto.
Qed.

Lemma discover_keeps_registry s : respects (keeps_registry_of s) (discover s).
Proof.
  unfold discover.
  repeat (intros;
    match goal with
    | |- respects _ (bind _ _) =>
        apply respects_bind; [exact (keeps_registry_of_trans s) | |]
    | |- respects _ (ret _) => apply respects_ret, keeps_registry_of_refl
    | |- respects _ (for_each _ _) =>
        apply respects_for_each;
          [exact (keeps_registry_of_refl s) | exact (keeps_registry_of_trans s) |]
    | |- respects _ (transport _ _) => apply keeps_registry_of_transport
    | |- respects _ (register _ _) => apply keeps_registry_of_register
    | |- respects _ (modify _) =>
        apply keeps_registry_of_modify; intros; split; reflexivity
    | |- respects _ (match ?x with _ => _ end) => destruct x
    end).
Qed.

Lemma dict_get_In {V : Type} (d : dict V) k v :
  dict_get d k = Some v -> exists k', In (k', v) d.
Proof.
  induction d as [| [k' v'] d IH]; cbn; [discriminate |].
  destruct (String.eqb k' k).
  - intros [= ->]. eauto.
  - intros H. destruct (IH H) as [k'' Hin]. eauto.
Qed.

Lemma registry_of_lookup s st key sess :
  registry_of s st -> dict_get (sessions st) key = Some sess ->
  sess = s /\ session st = Some sess.
Proof.
  intros [Hs Hall] Hget. apply dict_get_In in Hget as [k' Hin].
  rewrite Forall_forall in Hall. specialize (Hall _ Hin). cbn in Hall.
  subst. auto.
Qed.

(** After [connect_to_server] on a chatbot whose registry is empty, every
    entry of the registry holds the session object created by the call. *)
Lemma connect_to_server_registry st key sess :
  sessions st = [] ->
  dict_get (sessions (snd (connect_to_server st))) key = Some sess ->
  sess = next_object st /\ session (snd (connect_to_server st)) = Some sess.
Proof.
  intros Hempty. unfold connect_to_server.
  pose proof (enter_sse_client_run remote_research_url st) as Hsse.
  destruct (sse_client_reply (transport_calls st)) as [[cls msg | cls msg] | []].
  - rewrite (try_except_bind_caught _ _ _ _ _ _ _ Hsse). cbn.
    rewrite Hempty. discriminate.
  - rewrite (try_except_bind_uncaught _ _ _ _ _ _ _ Hsse). cbn.
    rewrite Hempty. discriminate.
  - rewrite (try_except_bind_ok _ _ _ _ _ _ Hsse).
    unfold enter_client_session.
    erewrite try_except_bind_ok by reflexivity.
    erewrite try_except_bind_ok by reflexivity.
    match goal with
    | |- context [try_except (discover ?s) ?h ?st3] =>
        assert (Hreg : registry_of s (snd (try_except (discover s) h st3)))
    end.
    { apply (respects_try_except (keeps_registry_of (next_object st))).
      - apply keeps_registry_of_trans.
      - apply discover_keeps_registry.
      - intros e st' H. exact H.
      - split; cbn; [reflexivity | rewrite Hempty; constructor]. }
    intros Hget. exact (registry_of_lookup _ _ _ _ Hreg Hget).
Qed.

Ltac registry_frame :=
  first [ exact same_registry_refl | exact same_registry_trans
        | exact same_registry_print | exact same_registry_input
        | exact same_registry_messages_create | exact same_registry_call_tool
        | intros; apply same_registry_transport ].

(** C9: after [connect_to_server] on a new chatbot, every entry of the
    registry, whatever its key, holds the one session object that the call
    created, which is also [self.session]; the chat loop and everything it
    runs, and [cleanup], leave the registry as it is, so a key looked up
    before and after gives the same session. *)
Theorem registry_one_session_never_rewritten st :
  (forall key sess,
     dict_get (sessions (snd (connect_to_server (init st)))) key = Some sess ->
     sess = next_object st /\
     session (snd (connect_to_server (init st))) = Some sess) /\
  (forall fuel query st2,
     sessions (snd (process_query fuel query st2)) = sessions st2) /\
  (forall uri st2, sessions (snd (get_resource uri st2)) = sessions st2) /\
  (forall st2, sessions (snd (list_prompts st2)) = sessions st2) /\
  (forall fuel name args st2,
     sessions (snd (execute_prompt fuel name args st2)) = sessions st2) /\
  (forall fuel st2, sessions (snd (chat_loop fuel st2)) = sessions st2) /\
  (forall st2, sessions (snd (cleanup st2)) = sessions st2) /\
  (forall fuel st2 key,
     dict_get (sessions (snd (chat_loop fuel st2))) key
     = dict_get (sessions st2) key).
Proof.
  split; [| repeat split].
  - intros key sess Hget.
    apply (connect_to_server_registry (init st) key sess); [reflexivity | exact Hget].
  - intros fuel query st2.
    apply (respects_process_query same_registry); registry_frame.
  - intros uri st2. apply (respects_get_resource same_registry); registry_frame.
  - intros st2. apply (respects_list_prompts same_registry); registry_frame.
  - intros fuel name args st2.
    apply (respects_execute_prompt same_registry); registry_frame.
  - intros fuel st2. apply chat_loop_same_registry.
  - intros st2. apply same_registry_cleanup.
  - intros fuel st2 key. rewrite chat_loop_same_registry. reflexivity.
Qed.

(** C1 (amended): when [self.session] is set, every tool call returns, and
    some response of the model asks for no tool, [process_query] ends
    normally at the first such response, and what it has printed by then is
    the "Calling tool" line of every request of the rounds before, followed
    by the text blocks of that final response in block order. *)
Theorem process_query_terminates query st s responses :
  session st = Some s ->
  (forall k, exists r, call_tool_reply k = inr r) ->
  (forall k, model_reply (model_calls st + k) = inr (responses k)) ->
  (exists n, filter is_tool_use (responses n) = []) ->
  exists m st',
    filter is_tool_use (responses m) = [] /\
    (forall k, k < m -> filter is_tool_use (responses k) <> []) /\
    (forall fuel, m < fuel -> process_query fuel query st = (Ok tt, st')) /\
    printed (trace st')
    = (printed (trace st) ++ calling_lines_upto responses m
       ++ text_blocks (responses m))%list.
Proof.
  intros Hs Htools Hmodel [n Hn].
  exact (query_loop_terminates n responses _ st s Hs Htools Hmodel Hn).
Qed.

(** ** Errors *)

Lemma extends_cleanup : respects extends cleanup.
Proof.
  unfold cleanup.
  apply respects_bind; [exact extends_trans | intros st; apply extends_refl |].
  intros stack.
  apply respects_bind;
    [exact extends_trans | intros st; exists []; symmetry; apply app_nil_r |].
  intros _. apply respects_for_each; [exact extends_refl | exact extends_trans |].
  intros c st. exists [Close c]. reflexivity.
Qed.

(** An iteration of the chat loop starts by prompting for a line. *)
Lemma chat_while_prompts fuel st :
  exists rest,
    trace (snd (chat_while (S fuel) st))
    = (trace st ++ Input "Query: " :: rest)%list.
Proof.
  assert (H : extends (snd (input "Query: " st)) (snd (chat_while (S fuel) st))).
  { cbn [chat_while].
    apply extends_trans with (snd (chat_turn fuel st)).
    - unfold chat_turn. apply bind_after; [exact extends_refl |].
      intros line. apply respects_dispatch; extends_frame.
    - apply extends_trans
        with (snd (try_except (chat_turn fuel)
                     (fun e => print (nl ++ "Error: " ++ str_exn e) ;; ret false)
                     st)).
      + apply try_except_after; [exact extends_refl |].
        intros e st'. eexists. reflexivity.
      + apply bind_after; [exact extends_refl |].
        intros [|].
        * intros st'. apply extends_refl.
        * apply respects_chat_while; extends_frame. }
  destruct H as [rest Hrest]. exists rest. rewrite Hrest, input_run.
  destruct (stdin st); cbn; rewrite <- app_assoc; reflexivity.
Qed.

Lemma connect_to_server_unreachable st cls msg :
  sse_client_reply (transport_calls st) = inl (Exception cls msg) ->
  connect_to_server st
  = (Ok tt,
     with_transport_calls (S (transport_calls st))
       (log [Enter (SseClient remote_research_url);
             Print (nl ++ "Error connecting to server: " ++ msg)] st)).
Proof.
  intros Hsse. unfold connect_to_server.
  pose proof (enter_sse_client_run remote_research_url st) as Hrun.
  rewrite Hsse in Hrun.
  rewrite (try_except_bind_caught _ _ _ _ _ _ _ Hrun). cbn [str_exn].
  rewrite print_run. f_equal. same_state.
Qed.

(** C3 (amended): when entering the SSE client raises an error,
    [connect_to_server] prints "Error connecting to server: ..." and returns
    normally, with no session and an empty registry; [main] then runs the
    chat loop from that state, inside the [try] whose [finally] is
    [cleanup]: the banner is printed and the first line is asked for. *)
Theorem connection_error_reported_then_chat_loop fuel st cls msg :
  sse_client_reply (transport_calls st) = inl (Exception cls msg) ->
  let st1 :=
    with_transport_calls (S (transport_calls st))
      (log [Enter (SseClient remote_research_url);
            Print (nl ++ "Error connecting to server: " ++ msg)] (init st)) in
  connect_to_server (init st) = (Ok tt, st1) /\
  session st1 = None /\ sessions st1 = [] /\
  main fuel st = try_finally (chat_loop fuel) cleanup st1 /\
  exists rest,
    trace (snd (main (S fuel) st))
    = (trace st ++ Enter (SseClient remote_research_url)
         :: Print (nl ++ "Error connecting to server: " ++ msg)
         :: Print banner :: Input "Query: " :: rest)%list.
Proof.
  intros Hsse st1.
  assert (Hconnect : connect_to_server (init st) = (Ok tt, st1)).
  { exact (connect_to_server_unreachable (init st) cls msg Hsse). }
  assert (Hmain : forall n, main n st = try_finally (chat_loop n) cleanup st1).
  { intros n. unfold main, new_chatbot, bind at 1, modify.
    unfold try_finally, bind at 1. rewrite Hconnect. reflexivity. }
  split; [exact Hconnect |]. split; [reflexivity |]. split; [reflexivity |].
  split; [apply Hmain |].
  rewrite Hmain.
  assert (H : extends (snd (chat_loop (S fuel) st1))
                (snd (try_finally (chat_loop (S fuel)) cleanup st1))).
  { apply try_finally_after;
      first [exact extends_refl | exact extends_trans | exact extends_cleanup]. }
  destruct H as [rest2 H2]. rewrite H2.
  unfold chat_loop, bind at 1. rewrite print_run.
  destruct (chat_while_prompts fuel (log [Print banner] st1)) as [rest1 H1].
  rewrite H1. exists (rest1 ++ rest2)%list. cbn.
  rewrite <- !app_assoc. reflexivity.
Qed.

(** The chat loop lets no exception of class [Exception] out. *)
Lemma chat_while_raises_no_Exception fuel : forall st e st',
  chat_while fuel st = (Raise e, st') -> is_Exception e = false.
Proof.
  induction fuel as [| fuel IH]; intros st e st'; cbn [chat_while].
  - discriminate.
  - unfold bind at 1, try_except.
    destruct (chat_turn fuel st) as [[[|] | [cls msg | cls msg] |] st1].
    + discriminate.
    + apply IH.
    + cbn. apply IH.
    + intros [= <- _]. reflexivity.
    + discriminate.
Qed.

(** C8: an error raised while a line is being processed is caught by the
    chat loop, which prints "Error: ..." and goes on with the next
    iteration, whose first act is to prompt for the next line; and no
    exception of class [Exception] ever ends the chat loop. *)
Theorem chat_loop_reports_error_and_continues fuel st cls msg st1 :
  chat_turn (S fuel) st = (Raise (Exception cls msg), st1) ->
  chat_while (S (S fuel)) st
  = chat_while (S fuel) (log [Print (nl ++ "Error: " ++ msg)] st1) /\
  (exists rest,
     trace (snd (chat_while (S (S fuel)) st))
     = (trace st1 ++ Print (nl ++ "Error: " ++ msg)
          :: Input "Query: " :: rest)%list) /\
  (forall n st0 e st',
     chat_loop n st0 = (Raise e, st') -> is_Exception e = false).
Proof.
  intros Hturn.
  assert (Hstep : chat_while (S (S fuel)) st
                  = chat_while (S fuel) (log [Print (nl ++ "Error: " ++ msg)] st1)).
  { change (chat_while (S (S fuel)))
      with (stop <- try_except (chat_turn (S fuel))
                      (fun e => print (nl ++ "Error: " ++ str_exn e) ;; ret false) ;;
            if stop then ret tt else chat_while (S fuel)).
    unfold bind at 1, try_except. rewrite Hturn. reflexivity. }
  split; [exact Hstep |]. split.
  - rewrite Hstep.
    destruct (chat_while_prompts fuel (log [Print (nl ++ "Error: " ++ msg)] st1))
      as [rest Hrest].
    exists rest. rewrite Hrest. cbn. rewrite <- app_assoc. reflexivity.
  - intros n st0 e st'. unfold chat_loop, bind at 1. rewrite print_run.
    apply chat_while_raises_no_Exception.
Qed.

(** * Further properties of the code *)

Lemma log_log evs1 evs2 st : log evs2 (log evs1 st) = log (evs1 ++ evs2) st.
Proof. same_state. Qed.

(** ** The chat loop at end of input *)

(** X1 (lines 154-201): when standard input is exhausted, [input] raises
    [EOFError], the loop's own handler catches it, and the next iteration
    meets the same end of input: however many iterations are allowed, the
    loop has not returned, and each of them has prompted and printed the
    error. *)
Theorem chat_while_spins_at_end_of_input fuel : forall st,
  stdin st = [] ->
  chat_while fuel st
  = (OutOfFuel,
     log (concat (repeat [Input "Query: ";
                          Print (nl ++ "Error: EOF when reading a line")] fuel))
       st).
Proof.
  induction fuel as [| fuel IH]; intros st Heof.
  - cbn. rewrite log_nil. reflexivity.
  - cbn [chat_while]. unfold bind at 1, try_except, chat_turn, bind at 1.
    rewrite input_run, Heof. cbn [str_exn]. unfold bind at 1.
    rewrite print_run. cbn [ret]. rewrite IH by exact Heof.
    f_equal. rewrite !log_log. reflexivity.
Qed.

(** ** Failures inside [process_query] *)

(** X2 (lines 30-38): the first request of [process_query] carries a history
    made of the query alone, with the tools registered so far, the model
    name and the limit of 2024 tokens. *)
Theorem process_query_first_request fuel query st :
  exists rest,
    trace (snd (process_query (S fuel) query st))
    = (trace st
       ++ MessagesCreate "claude-opus-4-5-20251101" 2024 (available_tools st)
            [mkMessage user (Str query)]
          :: rest)%list.
Proof. apply query_loop_requests. Qed.

Lemma call_tools_raises blocks : forall acc st s i e,
  session st = Some s ->
  Forall (fun b => is_tool_use b = true) blocks ->
  i < length blocks ->
  (forall j, j < i -> exists r, call_tool_reply (transport_calls st + j) = inr r) ->
  call_tool_reply (transport_calls st + i) = inl e ->
  call_tools blocks acc st
  = (Raise e,
     with_transport_calls (transport_calls st + S i)
       (log (tool_round_events s (firstn (S i) blocks)) st)).
Proof.
  induction blocks as [| b blocks IH]; intros acc st s i e Hs Hall Hi Hbefore He.
  - cbn in Hi. lia.
  - inversion Hall as [| b' blocks' Hb Hrest]; subst.
    destruct b as [t | tool_id name input |]; try discriminate.
    rewrite (call_tools_step st s) by exact Hs. unfold bind at 1.
    destruct i as [| i].
    + rewrite Nat.add_0_r in He. rewrite He. cbn [of_reply raise].
      f_equal. cbn [firstn tool_round_events].
      replace (transport_calls st + 1) with (S (transport_calls st)) by lia.
      reflexivity.
    + destruct (Hbefore 0) as [r Hr]; [lia |].
      rewrite Nat.add_0_r in Hr. rewrite Hr. cbn [of_reply ret].
      rewrite (IH _ _ s i e).
      * f_equal. cbn [firstn tool_round_events with_transport_calls
                      transport_calls log with_trace].
        replace (S (transport_calls st) + S i)
          with (transport_calls st + S (S i)) by lia.
        same_state.
      * exact Hs.
      * exact Hrest.
      * cbn in Hi. lia.
      * intros j Hj. cbn [transport_calls with_transport_calls].
        destruct (Hbefore (S j)) as [r' Hr']; [lia |].
        exists r'. rewrite <- Hr'. f_equal. lia.
      * cbn [transport_calls with_transport_calls]. rewrite <- He. f_equal. lia.
Qed.

(** X3 (lines 55-79): when a tool call of a round raises, the exception leaves
    [process_query] at once: the requests after it are not dispatched (the
    transport has been asked exactly as many times as there are requests up
    to the failing one), and the model is not asked again. *)
Theorem query_loop_tool_call_raises fuel messages st s response i e :
  session st = Some s ->
  model_reply (model_calls st) = inr response ->
  i < length (filter is_tool_use response) ->
  (forall j, j < i -> exists r, call_tool_reply (transport_calls st + j) = inr r) ->
  call_tool_reply (transport_calls st + i) = inl e ->
  query_loop (S fuel) messages st
  = (Raise e,
     with_transport_calls (transport_calls st + S i)
       (log (tool_round_events s (firstn (S i) (filter is_tool_use response)))
          (with_model_calls (S (model_calls st))
             (log [MessagesCreate CLAUDE_MODEL 2024 (available_tools st) messages]
                st)))).
Proof.
  intros Hs Hmodel Hi Hbefore He. cbn [query_loop]. unfold bind at 1.
  rewrite messages_create_run, Hmodel. cbn [reply_result].
  destruct (filter is_tool_use response) as [| b blocks] eqn:Hfilter;
    [cbn in Hi; lia |].
  unfold bind at 1.
  rewrite (call_tools_raises (b :: blocks) [] _ s i e); try assumption.
  - reflexivity.
  - rewrite <- Hfilter. apply filter_is_tool_use_all.
Qed.

(** X4 (lines 61-68): on a chatbot whose [session] attribute was never set, the
    first tool-use request of a response is announced and then fails with
    [AttributeError]; nothing is sent over the transport. *)
Theorem query_loop_tool_call_without_session fuel messages st response
  tool_id name input others :
  session st = None ->
  model_reply (model_calls st) = inr response ->
  filter is_tool_use response = ToolUseBlock tool_id name input :: others ->
  query_loop (S fuel) messages st
  = (Raise (Exception "AttributeError"
              "'MCP_ChatBot' object has no attribute 'session'"),
     log [Print ("Calling tool: " ++ name ++ " (ID: " ++ tool_id
                 ++ ") with args: " ++ str_json input)]
       (with_model_calls (S (model_calls st))
          (log [MessagesCreate CLAUDE_MODEL 2024 (available_tools st) messages]
             st))).
Proof.
  intros Hs Hmodel Hfilter. cbn [query_loop]. unfold bind at 1.
  rewrite messages_create_run, Hmodel. cbn [reply_result]. rewrite Hfilter.
  unfold bind at 1. cbn [call_tools]. unfold bind at 1. rewrite print_run.
  unfold bind at 1. rewrite self_session_call_tool_unset by exact Hs.
  reflexivity.
Qed.

(** ** Resolving a resource *)

Lemma first_papers_session_none items :
  first_papers_session items = None <->
  (forall k v, In (k, v) items -> startswith k "papers://" = false).
Proof.
  induction items as [| [k v] items IH]; cbn [first_papers_session].
  - split; [intros _ k v [] | reflexivity].
  - destruct (startswith k "papers://") eqn:Hk.
    + split; [discriminate |]. intros H.
      rewrite (H k v) in Hk by (left; reflexivity). discriminate.
    + rewrite IH. split.
      * intros H k' v' [[= <- <-] | Hin]; [exact Hk | exact (H _ _ Hin)].
      * intros H k' v' Hin. apply (H k' v'). right. exact Hin.
Qed.

(** X5 (lines 83-98): a resource is "not found" exactly when its URI is not a key
    of the registry and, besides, either it is outside the [papers://]
    namespace or no key of the registry is inside it. *)
Theorem resolve_resource_none_iff registry uri :
  resolve_resource registry uri = None <->
  dict_get registry uri = None /\
  (startswith uri "papers://" = false \/
   forall k v, In (k, v) registry -> startswith k "papers://" = false).
Proof.
  unfold resolve_resource. destruct (dict_get registry uri) as [sess |].
  - split; [discriminate | intros [H _]; discriminate].
  - destruct (startswith uri "papers://").
    + rewrite first_papers_session_none. split.
      * intros H. split; [reflexivity | right; exact H].
      * intros [_ [H | H]]; [discriminate | exact H].
    + split; [intros _; split; [reflexivity | left; reflexivity] | reflexivity].
Qed.

(** X6 (lines 86-94): the fallback gives the session of the first key, in the
    order in which the keys were registered, that starts with [papers://],
    whatever the URI asked for and whatever is registered after it. *)
Theorem resolve_resource_fallback_first registry uri before k sess after :
  dict_get registry uri = None ->
  startswith uri "papers://" = true ->
  registry = (before ++ (k, sess) :: after)%list ->
  (forall k' v, In (k', v) before -> startswith k' "papers://" = false) ->
  startswith k "papers://" = true ->
  resolve_resource registry uri = Some sess.
Proof.
  intros Hget Huri -> Hbefore Hk. unfold resolve_resource.
  rewrite Hget, Huri. clear Hget.
  induction before as [| [k' v'] before IH]; cbn [app first_papers_session].
  - rewrite Hk. reflexivity.
  - rewrite (Hbefore k' v') by (left; reflexivity).
    apply IH. intros k'' v'' Hin. apply (Hbefore k'' v''). right. exact Hin.
Qed.

(** ** Errors that stay inside [get_resource] and [execute_prompt] *)

(** X7 (lines 100-109): [get_resource] sends at most one request and lets no
    [Exception] out: a failed read is caught by its own handler. *)
Theorem get_resource_contains_errors uri st :
  no_Exception (fst (get_resource uri st)) /\
  transport_calls (snd (get_resource uri st)) <= S (transport_calls st) /\
  model_calls (snd (get_resource uri st)) = model_calls st.
Proof.
  unfold get_resource, bind, gets, try_except. cbv beta.
  destruct (resolve_resource (sessions st) uri) as [sess |].
  - rewrite !transport_run.
    destruct (read_resource_reply (transport_calls st))
      as [[cls msg | cls msg] | [[| first others] |]];
      cbn; repeat split; auto.
  - cbn. repeat split; auto.
Qed.

(** X8 (lines 100-109): a read that raises is reported as "Error: ..." and a read
    that gives nothing, or an empty list, as "No content available."; in
    both cases [get_resource] returns normally. *)
Theorem get_resource_reports_failed_read st uri s :
  resolve_resource (sessions st) uri = Some s ->
  (forall cls msg,
     read_resource_reply (transport_calls st) = inl (Exception cls msg) ->
     get_resource uri st
     = (Ok tt,
        with_transport_calls (S (transport_calls st))
          (log [ReadResource s uri; Print ("Error: " ++ msg)] st))) /\
  (read_resource_reply (transport_calls st) = inr None \/
   read_resource_reply (transport_calls st) = inr (Some []) ->
   get_resource uri st
   = (Ok tt,
      with_transport_calls (S (transport_calls st))
        (log [ReadResource s uri; Print "No content available."] st))).
Proof.
  intros Hres. split.
  - intros cls msg Hreply. unfold get_resource, bind at 1, gets. rewrite Hres.
    unfold try_except, bind. rewrite transport_run, Hreply.
    cbn [reply_result str_exn]. rewrite print_run. f_equal. same_state.
  - intros Hreply. unfold get_resource, bind at 1, gets. rewrite Hres.
    unfold try_except, bind. rewrite transport_run.
    destruct Hreply as [-> | ->]; cbn [reply_result]; rewrite print_run;
      f_equal; same_state.
Qed.

Lemma try_except_print_no_Exception (m : M unit) prefix st :
  no_Exception
    (fst (try_except m (fun e => print (prefix ++ str_exn e)) st)).
Proof.
  unfold try_except.
  destruct (m st) as [[u | [cls msg | cls msg] |] st1]; cbn; auto.
Qed.

(** X9 (lines 126-146): [execute_prompt] lets no [Exception] out, neither from
    fetching the prompt nor from the query it then runs. *)
Theorem execute_prompt_contains_errors fuel name args st :
  no_Exception (fst (execute_prompt fuel name args st)).
Proof.
  unfold execute_prompt, bind at 1, gets.
  destruct (dict_get (sessions st) name) as [sess |].
  - apply (try_except_print_no_Exception _ "Error: ").
  - exact I.
Qed.

(** X10 (lines 128-144): a registered prompt is fetched from the session that the
    registry gives for its name; the content of the first message of the
    answer, turned into text, is then run as a query of its own, and the
    messages after the first are not used. *)
Theorem execute_prompt_runs_first_message fuel name args st s content text others :
  dict_get (sessions st) name = Some s ->
  get_prompt_reply (transport_calls st) = inr (Some (content :: others)) ->
  prompt_text content = ret text ->
  execute_prompt fuel name args st
  = try_except (process_query fuel text)
      (fun e => print ("Error: " ++ str_exn e))
      (log [Print (nl ++ "Executing prompt '" ++ name ++ "'...")]
         (with_transport_calls (S (transport_calls st))
            (log [GetPrompt s name args] st))).
Proof.
  intros Hget Hreply Htext. unfold execute_prompt, bind at 1, gets.
  rewrite Hget.
  erewrite try_except_bind_ok
    by (rewrite transport_run, Hreply; reflexivity).
  cbv beta iota. rewrite Htext.
  erewrite try_except_bind_ok by reflexivity.
  erewrite try_except_bind_ok by reflexivity.
  reflexivity.
Qed.

(** ** list_prompts *)

Lemma for_each_print {A : Type} (f : A -> string) l st :
  for_each l (fun x => print (f x)) st = (Ok tt, log (map Print (map f l)) st).
Proof.
  revert st. induction l as [| x l IH]; intros st; cbn [for_each map].
  - cbn. rewrite log_nil. reflexivity.
  - unfold bind. rewrite print_run, IH. rewrite log_log. reflexivity.
Qed.

Lemma for_each_cons {A : Type} (x : A) l (body : A -> M unit) :
  for_each (x :: l) body = (body x ;; for_each l body).
Proof. reflexivity. Qed.

Lemma list_prompts_run st :
  list_prompts st
  = (Ok tt, log (map Print (prompts_listing (available_prompts st))) st).
Proof.
  unfold list_prompts, bind at 1, gets.
  destruct (available_prompts st) as [| p0 prompts0] eqn:Hprompts;
    [reflexivity |].
  unfold bind at 1. rewrite print_run.
  assert (Hloop : forall prompts st',
    for_each prompts (fun p =>
      print ("- " ++ prompt_name p ++ ": " ++ str_option (prompt_description p)) ;;
      match prompt_arguments p with
      | Some (a :: args) =>
          print "  Arguments:" ;;
          for_each (a :: args) (fun arg => print ("    - " ++ arg_name arg))
      | _ => ret tt
      end) st'
    = (Ok tt, log (map Print (flat_map prompt_lines prompts)) st')).
  { induction prompts as [| p prompts IH]; intros st'.
    - cbn. rewrite log_nil. reflexivity.
    - rewrite for_each_cons. cbn [flat_map].
      unfold bind at 1. unfold bind at 1. rewrite print_run.
      unfold prompt_lines at 1.
      destruct (prompt_arguments p) as [[| a args] |].
      + cbn [ret]. rewrite IH, log_log. reflexivity.
      + unfold bind at 1. rewrite print_run.
        rewrite (for_each_print (fun arg => "    - " ++ arg_name arg)).
        rewrite IH, !log_log. f_equal. f_equal.
        rewrite !map_app. reflexivity.
      + cbn [ret]. rewrite IH, log_log. reflexivity. }
  rewrite Hloop, log_log. reflexivity.
Qed.

(** X11 (lines 111-124): [list_prompts] always returns normally and only prints:
    the line "No prompts available." when there is no prompt, and otherwise
    a header, then for each prompt its name and description followed, when
    it declares arguments, by their names. *)
Theorem list_prompts_prints_listing st :
  list_prompts st
  = (Ok tt, log (map Print (prompts_listing (available_prompts st))) st).
Proof. apply list_prompts_run. Qed.

(** ** Parsing the arguments of [/prompt] *)

Lemma split1_contains c s :
  contains c s = true -> exists key value, split1 c s = [key; value].
Proof.
  induction s as [| d s IH]; cbn; [discriminate |].
  destruct (Ascii.eqb d c).
  - intros _. eauto.
  - intros H. destruct (IH H) as (key & value & ->). eauto.
Qed.

Lemma parse_args_ok tokens : forall args st,
  exists d, parse_args tokens args st = (Ok d, st).
Proof.
  induction tokens as [| arg tokens IH]; intros args st; cbn [parse_args].
  - exists args. reflexivity.
  - destruct (contains "="%char arg) eqn:Harg; [| apply IH].
    destruct (split1_contains _ _ Harg) as (key & value & ->). apply IH.
Qed.

Lemma parse_args_app tokens1 tokens2 : forall args st,
  exists d,
    parse_args tokens1 args st = (Ok d, st) /\
    parse_args (tokens1 ++ tokens2) args st = parse_args tokens2 d st.
Proof.
  induction tokens1 as [| arg tokens1 IH]; intros args st;
    cbn [parse_args app].
  - exists args. split; reflexivity.
  - destruct (contains "="%char arg) eqn:Harg; [| apply IH].
    destruct (split1_contains _ _ Harg) as (key & value & ->). apply IH.
Qed.

Lemma dict_get_set_same {V : Type} (d : dict V) k v :
  dict_get (dict_set d k v) k = Some v.
Proof.
  induction d as [| [k' v'] d IH]; cbn.
  - rewrite String.eqb_refl. reflexivity.
  - destruct (String.eqb k' k) eqn:E; cbn; rewrite E; auto.
Qed.

(** X12 (lines 184-190): parsing the trailing tokens never fails, whatever the
    tokens are (the test for [=] makes the unpacking of [split("=", 1)]
    safe), and touches nothing else. *)
Theorem parse_args_never_fails tokens args st :
  exists d, parse_args tokens args st = (Ok d, st).
Proof. apply parse_args_ok. Qed.

Lemma dict_get_set_other {V : Type} (d : dict V) k k' v :
  k <> k' -> dict_get (dict_set d k v) k' = dict_get d k'.
Proof.
  intros Hne. induction d as [| [k0 v0] d IH]; cbn.
  - apply String.eqb_neq in Hne. rewrite Hne. reflexivity.
  - destruct (String.eqb k0 k) eqn:E; cbn.
    + apply String.eqb_eq in E. subst k0.
      apply String.eqb_neq in Hne. rewrite Hne. reflexivity.
    + destruct (String.eqb k0 k'); auto.
Qed.

Lemma split1_inv c : forall s key value,
  split1 c s = [key; value] -> s = key ++ String c value.
Proof.
  induction s as [| d s IH]; intros key value; cbn [split1].
  - discriminate.
  - destruct (Ascii.eqb_spec d c) as [-> | Hne].
    + intros [= <- <-]. reflexivity.
    + destruct (split1 c s) as [| x [| y rest]] eqn:Hs; try discriminate.
      destruct rest; [| discriminate].
      intros [= <- <-]. cbn. rewrite (IH x y eq_refl). reflexivity.
Qed.

Lemma parse_args_keeps_key key value after : forall d st d',
  (forall v, ~ In (key ++ "=" ++ v) after) ->
  dict_get d key = Some value ->
  parse_args after d st = (Ok d', st) ->
  dict_get d' key = Some value.
Proof.
  induction after as [| token after IH]; intros d st d' Hlast Hget;
    cbn [parse_args].
  - intros [= <-]. exact Hget.
  - assert (Hlast' : forall v, ~ In (key ++ "=" ++ v) after).
    { intros v Hin. apply (Hlast v). right. exact Hin. }
    destruct (contains "="%char token) eqn:Htoken; [| apply IH; assumption].
    destruct (split1_contains _ _ Htoken) as (k & v & Hsplit).
    rewrite Hsplit. apply IH; [exact Hlast' |].
    rewrite dict_get_set_other; [exact Hget |].
    intros ->. apply (Hlast v). left.
    exact (split1_inv _ _ _ _ Hsplit).
Qed.

(** X13 (lines 187-190): when a key is given more than once, the value of its
    last occurrence is the one kept, whatever tokens come before it and
    whatever tokens for other keys, or without [=], come after it. *)
Theorem parse_args_last_value_wins before key value after args st d :
  contains "="%char key = false ->
  (forall v, ~ In (key ++ "=" ++ v) after) ->
  parse_args (before ++ (key ++ "=" ++ value) :: after) args st = (Ok d, st) ->
  dict_get d key = Some value.
Proof.
  intros Hkey Hlast Hrun.
  destruct (parse_args_app before ((key ++ "=" ++ value) :: after) args st)
    as (d1 & _ & Happ).
  rewrite Happ in Hrun. cbn [parse_args] in Hrun.
  change (key ++ "=" ++ value) with (key ++ String "="%char value) in Hrun.
  rewrite contains_sep, (split1_first _ _ Hkey) in Hrun.
  apply (parse_args_keeps_key key value after (dict_set d1 key value) st d
           Hlast); [| exact Hrun].
  apply dict_get_set_same.
Qed.

(** ** What the dispatcher does with commands *)

Lemma startswith_char query c :
  startswith query (String c EmptyString) = true ->
  exists rest, query = String c rest.
Proof.
  unfold startswith. destruct query as [| d rest]; cbn; [discriminate |].
  destruct (ascii_dec c d) as [<- | Hne]; [eauto | discriminate].
Qed.

Lemma startswith_first_char c rest :
  startswith (String c rest) (String c EmptyString) = true.
Proof.
  unfold startswith. cbn.
  destruct (ascii_dec c c); [destruct rest; reflexivity | contradiction].
Qed.

Lemma dispatch_at fuel topic :
  dispatch fuel (String "@"%char topic)
  = (get_resource ("papers://" ++ topic) ;; ret false).
Proof.
  unfold dispatch.
  change (String.eqb (String "@"%char topic) EmptyString
          || String.eqb (lower (String "@"%char topic)) "quit")%bool with false.
  rewrite startswith_first_char. cbn [tail].
  destruct (String.eqb_spec topic "folders") as [-> | _]; reflexivity.
Qed.

(** X14 (lines 161-169): a line [@<topic>] asks for the resource
    [papers://<topic>], for every topic: the special case made of
    [folders] builds the same URI as the general one. *)
Theorem dispatch_resource_uri fuel topic :
  dispatch fuel ("@" ++ topic)
  = (get_resource ("papers://" ++ topic) ;; ret false).
Proof. apply dispatch_at. Qed.

Lemma dispatch_slash fuel rest :
  dispatch fuel (String "/"%char rest)
  = match split (String "/"%char rest) with
    | [] => raise (Exception "IndexError" "list index out of range")
    | part0 :: parts' =>
        if String.eqb (lower part0) "/prompts" then list_prompts ;; ret false
        else if String.eqb (lower part0) "/prompt" then
          match parts' with
          | [] =>
              print "Usage: /prompt <name> <arg1=value1> <arg2=value2>" ;;
              ret false
          | prompt_name :: tokens =>
              args <- parse_args tokens [] ;;
              execute_prompt fuel prompt_name args ;;
              ret false
          end
        else print ("Unknown command: " ++ lower part0) ;; ret false
    end.
Proof.
  unfold dispatch.
  change (String.eqb (String "/"%char rest) EmptyString
          || String.eqb (lower (String "/"%char rest)) "quit")%bool with false.
  change (startswith (String "/"%char rest) "@") with false.
  rewrite startswith_first_char. reflexivity.
Qed.

(** X15 (lines 172-195): a line of ASCII characters that starts with [/] and
    whose first word, in lower case, is neither [/prompts] nor [/prompt]
    only prints "Unknown command: " and that word in lower case; no request
    is sent. *)
Theorem dispatch_unknown_command fuel query part0 parts st :
  is_ascii query = true ->
  startswith query "/" = true ->
  split query = part0 :: parts ->
  lower part0 <> "/prompts" ->
  lower part0 <> "/prompt" ->
  dispatch fuel query st
  = (Ok false, log [Print ("Unknown command: " ++ lower part0)] st).
Proof.
  intros _ Hslash Hsplit Hprompts Hprompt.
  destruct (startswith_char _ _ Hslash) as [rest ->].
  rewrite dispatch_slash, Hsplit.
  apply String.eqb_neq in Hprompts, Hprompt. rewrite Hprompts, Hprompt.
  reflexivity.
Qed.

(** X16 (lines 178-181): [/prompt] with no prompt name, in any mix of cases, only
    prints the usage line; no request is sent. *)
Theorem dispatch_prompt_without_name fuel query part0 st :
  startswith query "/" = true ->
  split query = [part0] ->
  lower part0 = "/prompt" ->
  dispatch fuel query st
  = (Ok false,
     log [Print "Usage: /prompt <name> <arg1=value1> <arg2=value2>"] st).
Proof.
  intros Hslash Hsplit Hprompt.
  destruct (startswith_char _ _ Hslash) as [rest ->].
  rewrite dispatch_slash, Hsplit, Hprompt. reflexivity.
Qed.

Lemma split_from_nonempty s : forall cur,
  cur <> EmptyString -> split_from cur s <> [].
Proof.
  induction s as [| c s IH]; intros cur Hcur; cbn [split_from].
  - destruct cur; [contradiction | discriminate].
  - destruct (isspace c).
    + destruct cur; [contradiction | discriminate].
    + apply IH. destruct cur; discriminate.
Qed.

Lemma no_Exception_then_ret {A B : Type} (m : M A) (b : B) st :
  no_Exception (fst (m st)) -> no_Exception (fst ((m ;; ret b) st)).
Proof.
  unfold bind. destruct (m st) as [[a | e |] st1]; cbn; auto.
Qed.

Lemma get_resource_no_Exception uri st :
  no_Exception (fst (get_resource uri st)).
Proof.
  unfold get_resource, bind, gets, try_except. cbv beta.
  destruct (resolve_resource (sessions st) uri) as [sess |]; [| exact I].
  rewrite !transport_run.
  destruct (read_resource_reply (transport_calls st))
    as [[cls msg | cls msg] | [[| first others] |]]; cbn; auto.
Qed.

Lemma execute_prompt_no_Exception fuel name args st :
  no_Exception (fst (execute_prompt fuel name args st)).
Proof.
  unfold execute_prompt, bind at 1, gets.
  destruct (dict_get (sessions st) name) as [sess |].
  - apply (try_except_print_no_Exception _ "Error: ").
  - exact I.
Qed.

(** X17 (lines 160-195): a line that starts with [@] or with [/] never reaches
    the error handler of the chat loop: whatever the remote ends answer,
    processing it raises no [Exception]. *)
Theorem dispatch_command_raises_no_Exception fuel query st :
  startswith query "@" = true \/ startswith query "/" = true ->
  no_Exception (fst (dispatch fuel query st)).
Proof.
  intros [Hat | Hslash].
  - destruct (startswith_char _ _ Hat) as [topic ->].
    rewrite dispatch_at. apply no_Exception_then_ret, get_resource_no_Exception.
  - destruct (startswith_char _ _ Hslash) as [rest ->].
    rewrite dispatch_slash.
    destruct (split (String "/"%char rest)) as [| part0 parts'] eqn:Hsplit.
    + exfalso. revert Hsplit. unfold split. cbn [split_from].
      change (isspace "/"%char) with false. cbv iota.
      apply split_from_nonempty. discriminate.
    + destruct (String.eqb (lower part0) "/prompts").
      * apply no_Exception_then_ret. rewrite list_prompts_run. exact I.
      * destruct (String.eqb (lower part0) "/prompt"); [| exact I].
        destruct parts' as [| prompt_name tokens]; [exact I |].
        unfold bind at 1.
        destruct (parse_args_ok tokens [] st) as [args ->].
        apply no_Exception_then_ret, execute_prompt_no_Exception.
Qed.

(** ** Discovery *)

Lemma bind_ok {A B : Type} (m : M A) (f : A -> M B) st a st1 :
  m st = (Ok a, st1) -> bind m f st = f a st1.
Proof. intros Hm. unfold bind. rewrite Hm. reflexivity. Qed.

Lemma bind_raise {A B : Type} (m : M A) (f : A -> M B) st e st1 :
  m st = (Raise e, st1) -> bind m f st = (Raise e, st1).
Proof. intros Hm. unfold bind. rewrite Hm. reflexivity. Qed.

Lemma register_all_lookup s keys : forall registry key,
  dict_get registry key = Some s \/ In key keys ->
  dict_get (register_all s keys registry) key = Some s.
Proof.
  unfold register_all.
  induction keys as [| k keys IH]; intros registry key H; cbn [fold_left].
  - destruct H as [H | []]. exact H.
  - apply IH. destruct (String.eqb_spec k key) as [-> | Hne].
    + left. apply dict_get_set_same.
    + destruct H as [H | [H | H]].
      * left. rewrite dict_get_set_other by exact Hne. exact H.
      * contradiction.
      * right. exact H.
Qed.

Lemma register_all_app s keys1 keys2 registry :
  register_all s (keys1 ++ keys2) registry
  = register_all s keys2 (register_all s keys1 registry).
Proof. apply fold_left_app. Qed.

Lemma state_ext (a b : State) :
  available_tools a = available_tools b ->
  available_prompts a = available_prompts b ->
  sessions a = sessions b ->
  session a = session b ->
  exit_stack a = exit_stack b ->
  trace a = trace b ->
  model_calls a = model_calls b ->
  transport_calls a = transport_calls b ->
  stdin a = stdin b ->
  next_object a = next_object b ->
  a = b.
Proof. destruct a, b. cbn. intros. subst. reflexivity. Qed.

Ltac state_fields :=
  apply state_ext;
  cbn [available_tools available_prompts sessions session exit_stack trace
       model_calls transport_calls stdin next_object
       log with_trace with_stdin with_transport_calls with_model_calls
       with_sessions with_session with_available_tools with_available_prompts
       with_exit_stack with_next_object];
  rewrite <- ?app_assoc; try reflexivity.

Ltac state_eq st :=
  destruct st;
  unfold log, with_trace, with_stdin, with_transport_calls, with_model_calls,
    with_sessions, with_session, with_available_tools, with_available_prompts,
    with_exit_stack, with_next_object, register_all;
  cbn; rewrite ?app_nil_r, <- ?app_assoc; reflexivity.

Lemma register_tools_run s tools : forall st,
  for_each tools (fun tool =>
    register (tool_name tool) s ;;
    modify (fun st =>
      with_available_tools
        (available_tools st ++
           [mkTool (tool_name tool) (tool_description tool) (tool_inputSchema tool)])
        st)) st
  = (Ok tt,
     with_available_tools (available_tools st ++ tools)
       (with_sessions (register_all s (map tool_name tools) (sessions st)) st)).
Proof.
  induction tools as [| [name description schema] tools IH]; intros st.
  - cbn. f_equal. state_eq st.
  - rewrite for_each_cons. unfold bind at 1. unfold bind at 1.
    unfold register, modify at 1 2. rewrite IH. f_equal. state_eq st.
Qed.

Lemma register_prompts_run s prompts : forall st,
  for_each prompts (fun prompt =>
    register (prompt_name prompt) s ;;
    modify (fun st =>
      with_available_prompts
        (available_prompts st ++
           [mkPrompt (prompt_name prompt) (prompt_description prompt)
              (prompt_arguments prompt)])
        st)) st
  = (Ok tt,
     with_available_prompts (available_prompts st ++ prompts)
       (with_sessions (register_all s (map prompt_name prompts) (sessions st)) st)).
Proof.
  induction prompts as [| [name description arguments] prompts IH]; intros st.
  - cbn. f_equal. state_eq st.
  - rewrite for_each_cons. unfold bind at 1. unfold bind at 1.
    unfold register, modify at 1 2. rewrite IH. f_equal. state_eq st.
Qed.

Lemma register_resources_run s uris : forall st,
  for_each uris (fun uri => register uri s) st
  = (Ok tt, with_sessions (register_all s uris (sessions st)) st).
Proof.
  induction uris as [| uri uris IH]; intros st.
  - cbn. f_equal. state_eq st.
  - rewrite for_each_cons. unfold bind at 1.
    unfold register, modify at 1. rewrite IH. f_equal.
Qed.

(** Lines 216-247 when every request is answered. *)
Lemma discover_run s st tools prompts_response resources_response :
  initialize_reply (transport_calls st) = inr tt ->
  list_tools_reply (transport_calls st + 1) = inr tools ->
  list_prompts_reply (transport_calls st + 2) = inr prompts_response ->
  list_resources_reply (transport_calls st + 3) = inr resources_response ->
  discover s st
  = (Ok tt,
     with_transport_calls (transport_calls st + 4)
       (log [Initialize s; ListTools s; ListPrompts s; ListResources s]
          (with_available_prompts (available_prompts st ++ listed prompts_response)
             (with_available_tools (available_tools st ++ tools)
                (with_sessions
                   (register_all s
                      (map tool_name tools
                       ++ map prompt_name (listed prompts_response)
                       ++ listed resources_response)
                      (sessions st))
                   st))))).
Proof.
  intros Hinit Htools Hprompts Hresources. unfold discover.
  erewrite bind_ok by (rewrite transport_run, Hinit; reflexivity).
  erewrite bind_ok
    by (rewrite transport_run; cbn [transport_calls with_transport_calls log
                                    with_trace];
        replace (S (transport_calls st)) with (transport_calls st + 1) by lia;
        rewrite Htools; reflexivity).
  erewrite bind_ok by apply register_tools_run.
  erewrite bind_ok
    by (rewrite transport_run; cbn [transport_calls with_transport_calls log
                                    with_trace with_available_tools
                                    with_sessions];
        replace (S (transport_calls st + 1)) with (transport_calls st + 2) by lia;
        rewrite Hprompts; reflexivity).
  assert (Hloop : forall st0,
    match prompts_response with
    | Some (p :: ps) =>
        for_each (p :: ps) (fun prompt =>
          register (prompt_name prompt) s ;;
          modify (fun st =>
            with_available_prompts
              (available_prompts st ++
                 [mkPrompt (prompt_name prompt) (prompt_description prompt)
                    (prompt_arguments prompt)])
              st))
    | _ => ret tt
    end st0
    = (Ok tt,
       with_available_prompts (available_prompts st0 ++ listed prompts_response)
         (with_sessions
            (register_all s (map prompt_name (listed prompts_response))
               (sessions st0)) st0))).
  { intros st0. destruct prompts_response as [[| p ps] |].
    - cbn. f_equal. state_eq st0.
    - apply register_prompts_run.
    - cbn. f_equal. state_eq st0. }
  erewrite bind_ok by apply Hloop.
  erewrite bind_ok
    by (rewrite transport_run; cbn [transport_calls with_transport_calls log
                                    with_trace with_available_tools
                                    with_available_prompts with_sessions];
        replace (S (transport_calls st + 2)) with (transport_calls st + 3) by lia;
        rewrite Hresources; reflexivity).
  assert (Hres : forall st0,
    match resources_response with
    | Some (r :: rs) => for_each (r :: rs) (fun uri => register uri s)
    | _ => ret tt
    end st0
    = (Ok tt,
       with_sessions (register_all s (listed resources_response) (sessions st0))
         st0)).
  { intros st0. destruct resources_response as [[| r rs] |].
    - cbn. f_equal. state_eq st0.
    - apply register_resources_run.
    - cbn. f_equal. state_eq st0. }
  rewrite Hres. f_equal. state_fields.
  - rewrite !register_all_app. reflexivity.
  - lia.
Qed.

Lemma connect_to_server_enters st :
  sse_client_reply (transport_calls st) = inr tt ->
  connect_to_server st
  = try_except (discover (next_object st))
      (fun e => print (nl ++ "Error connecting to server: " ++ str_exn e))
      (with_session (Some (next_object st))
         (with_next_object (S (next_object st))
            (with_exit_stack
               (ClientSession (next_object st)
                :: SseClient remote_research_url :: exit_stack st)
               (with_transport_calls (S (transport_calls st))
                  (log [Enter (SseClient remote_research_url);
                        Enter (ClientSession (next_object st))] st))))).
Proof.
  intros Hsse. unfold connect_to_server.
  erewrite try_except_bind_ok by (rewrite enter_sse_client_run, Hsse; reflexivity).
  unfold enter_client_session.
  erewrite try_except_bind_ok by reflexivity.
  erewrite try_except_bind_ok by reflexivity.
  f_equal. state_fields.
Qed.

(** X18 (lines 203-247): when the endpoint answers every request of the setup,
    [connect_to_server] returns normally with [self.session] set to the new
    session; every tool name, prompt name and resource URI that was listed
    is a key of the registry and leads to that session; [available_tools]
    and [available_prompts] have gained the listed tools and prompts, in the
    order of the listings; five requests were sent; and the two contexts
    entered are on the exit stack, the session above the SSE client. *)
Theorem connect_to_server_registers_everything st tools prompts_response
  resources_response :
  sse_client_reply (transport_calls st) = inr tt ->
  initialize_reply (transport_calls st + 1) = inr tt ->
  list_tools_reply (transport_calls st + 2) = inr tools ->
  list_prompts_reply (transport_calls st + 3) = inr prompts_response ->
  list_resources_reply (transport_calls st + 4) = inr resources_response ->
  let s := next_object st in
  let st' := snd (connect_to_server st) in
  fst (connect_to_server st) = Ok tt /\
  session st' = Some s /\
  (forall key,
     In key (map tool_name tools ++ map prompt_name (listed prompts_response)
             ++ listed resources_response) ->
     dict_get (sessions st') key = Some s) /\
  available_tools st' = (available_tools st ++ tools)%list /\
  available_prompts st' = (available_prompts st ++ listed prompts_response)%list /\
  transport_calls st' = transport_calls st + 5 /\
  exit_stack st'
  = ClientSession s :: SseClient remote_research_url :: exit_stack st.
Proof.
  intros Hsse Hinit Htools Hprompts Hresources s st'. subst st'.
  rewrite (connect_to_server_enters st Hsse). fold s.
  unfold try_except.
  erewrite discover_run.
  - cbn. repeat split; try reflexivity.
    + intros key Hin. apply register_all_lookup. right. exact Hin.
    + lia.
  - cbn. rewrite <- Hinit. f_equal. lia.
  - cbn. rewrite <- Htools. f_equal. lia.
  - cbn. rewrite <- Hprompts. f_equal. lia.
  - cbn. rewrite <- Hresources. f_equal. lia.
Qed.

(** X19 (lines 211-217 and 249-250): when the endpoint accepts the connection but
    [initialize] raises, the error is printed and [connect_to_server]
    returns normally; [self.session] is then already set, to a session that
    was never initialized, and nothing has been registered. *)
Theorem connect_to_server_initialize_fails st cls msg :
  sse_client_reply (transport_calls st) = inr tt ->
  initialize_reply (transport_calls st + 1) = inl (Exception cls msg) ->
  let s := next_object st in
  let st' := snd (connect_to_server st) in
  fst (connect_to_server st) = Ok tt /\
  session st' = Some s /\
  sessions st' = sessions st /\
  available_tools st' = available_tools st /\
  available_prompts st' = available_prompts st /\
  trace st'
  = (trace st ++ [Enter (SseClient remote_research_url);
                  Enter (ClientSession s);
                  Initialize s;
                  Print (nl ++ "Error connecting to server: " ++ msg)])%list.
Proof.
  intros Hsse Hinit s st'. subst st'.
  rewrite (connect_to_server_enters st Hsse). fold s.
  unfold discover.
  erewrite try_except_bind_caught.
  2:{ rewrite transport_run. cbn [transport_calls with_session with_next_object
                                  with_exit_stack with_transport_calls].
      replace (S (transport_calls st)) with (transport_calls st + 1) by lia.
      rewrite Hinit. reflexivity. }
  cbn. repeat split. rewrite <- !app_assoc. reflexivity.
Qed.

(** ** Releasing the connection *)

Lemma cleanup_run st :
  cleanup st
  = (Ok tt, with_exit_stack [] (log (map Close (exit_stack st)) st)).
Proof.
  unfold cleanup, bind at 1, gets. unfold bind at 1, modify at 1.
  assert (H : forall stack st0,
    for_each stack (fun c => modify (log [Close c])) st0
    = (Ok tt, log (map Close stack) st0)).
  { induction stack as [| c stack IH]; intros st0.
    - cbn. rewrite log_nil. reflexivity.
    - rewrite for_each_cons. unfold bind at 1, modify at 1.
      rewrite IH, log_log. reflexivity. }
  rewrite H. f_equal.
Qed.

(** Lines 252-254: [cleanup] closes the contexts on the exit stack, the
    most recently entered first, and leaves the stack empty, so that a
    second [cleanup] closes nothing. *)
Theorem cleanup_closes_once st :
  cleanup st
  = (Ok tt, with_exit_stack [] (log (map Close (exit_stack st)) st)) /\
  cleanup (snd (cleanup st)) = (Ok tt, snd (cleanup st)).
Proof.
  split; [apply cleanup_run |].
  rewrite !cleanup_run. cbn [snd]. f_equal. state_eq st.
Qed.

(** X20 (lines 257-264): however [connect_to_server] and the chat loop end, by a
    normal return or by an exception that nothing caught, [main] ends with
    an empty exit stack: [cleanup] has run. *)
Theorem main_releases_contexts fuel st r st' :
  main fuel st = (r, st') ->
  r <> OutOfFuel ->
  exit_stack st' = [].
Proof.
  unfold main, new_chatbot, bind at 1, modify, try_finally.
  destruct ((connect_to_server ;; chat_loop fuel) (init st)) as [[u | e |] st1];
    rewrite ?cleanup_run; intros [= <- <-]; intros Hr;
    first [reflexivity | contradiction].
Qed.

(** ** Where tool calls go *)

Lemma tool_round_events_filter s response :
  tool_round_events s (filter is_tool_use response)
  = tool_round_events s response.
Proof.
  induction response as [| c rest IH]; cbn; [reflexivity |].
  destruct c; cbn; rewrite ?IH; reflexivity.
Qed.

(** Among the replies to [n] successive tool calls, either all are values
    or there is a first one that is an exception. *)
Lemma call_tool_replies_cases k n :
  (forall i, i < n -> exists r, call_tool_reply (k + i) = inr r) \/
  (exists i e,
     i < n /\
     (forall j, j < i -> exists r, call_tool_reply (k + j) = inr r) /\
     call_tool_reply (k + i) = inl e).
Proof.
  induction n as [| n IH].
  - left. intros i Hi. lia.
  - destruct IH as [Hall | (i & e & Hi & Hbefore & He)].
    + destruct (call_tool_reply (k + n)) as [e | r] eqn:Hn.
      * right. exists n, e. auto.
      * left. intros i Hi.
        destruct (Nat.eq_dec i n) as [-> | Hne]; [eauto | apply Hall; lia].
    + right. exists i, e. split; [lia | auto].
Qed.

Lemma query_loop_round_dispatched_to fuel messages st s response :
  session st = Some s ->
  model_reply (model_calls st) = inr response ->
  round_dispatched_to s st messages response
    (snd (query_loop (S fuel) messages st)).
Proof.
  intros Hs Hmodel. unfold round_dispatched_to.
  destruct (filter is_tool_use response) as [| b blocks] eqn:Hfilter.
  - exists 0, (map Print (text_blocks response)).
    split; [cbn; lia |]. split; [cbn; lia |]. split; [reflexivity |].
    rewrite (query_loop_final_round fuel messages st response Hmodel Hfilter).
    cbn. rewrite <- app_assoc. reflexivity.
  - rewrite <- Hfilter.
    destruct (call_tool_replies_cases (transport_calls st)
                (length (filter is_tool_use response)))
      as [Hall | (i & e & Hi & Hbefore & He)].
    + destruct (query_loop_tool_round messages st s response Hs Hmodel)
        as (tool_results & _ & _ & Hround).
      * rewrite Hfilter. cbn. lia.
      * exact Hall.
      * rewrite Hround.
        match goal with
        | |- context [query_loop fuel ?msgs ?st1] =>
            destruct (respects_query_loop extends extends_refl extends_trans
                        extends_print extends_messages_create
                        extends_call_tool fuel msgs st1) as [rest Hrest]
        end.
        exists (length (filter is_tool_use response)), rest.
        split; [auto |]. split; [auto |]. split; [auto |].
        rewrite Hrest, firstn_all, tool_round_events_filter.
        cbn. rewrite <- !app_assoc. reflexivity.
    + exists (S i), [].
      split; [lia |]. split; [lia |]. split.
      * intros Hall. destruct (Hall i Hi) as [r Hr]. congruence.
      * cbn [query_loop]. unfold bind at 1.
        rewrite messages_create_run, Hmodel. cbn [reply_result].
        rewrite Hfilter. unfold bind at 1. rewrite <- Hfilter.
        rewrite (call_tools_raises (filter is_tool_use response) [] _ s i e);
          try assumption.
        -- cbn. rewrite app_nil_r, <- app_assoc. reflexivity.
        -- apply filter_is_tool_use_all.
Qed.

(** C4: while [self.session] is [s], the tool-use requests of a response
    that [process_query] receives are each announced and then sent to [s],
    in the order of the response (the first of them always, all of them when
    every call returns), in the first round and in every later one; every
    tool call that a run of [process_query] adds to the trace went to [s],
    and [self.session] is still [s] afterwards.  The [sessions] registry,
    which the statement leaves arbitrary, has no part in it. *)
Theorem tool_calls_go_to_self_session fuel query st s :
  session st = Some s ->
  (forall tool_id name input rest acc,
     call_tools (ToolUseBlock tool_id name input :: rest) acc st
     = (result <- of_reply (call_tool_reply (transport_calls st)) ;;
        call_tools rest (acc ++ [mkToolResult tool_id (str_result result)]))
         (with_transport_calls (S (transport_calls st))
            (log [Print ("Calling tool: " ++ name ++ " (ID: " ++ tool_id
                         ++ ") with args: " ++ str_json input);
                  CallTool s name input] st))) /\
  (forall s' name input,
     In (CallTool s' name input) (trace (snd (process_query fuel query st))) ->
     In (CallTool s' name input) (trace st) \/ s' = s) /\
  session (snd (process_query fuel query st)) = Some s /\
  (forall response,
     model_reply (model_calls st) = inr response ->
     round_dispatched_to s st [mkMessage user (Str query)] response
       (snd (process_query (S fuel) query st))) /\
  (forall messages response,
     model_reply (model_calls st) = inr response ->
     round_dispatched_to s st messages response
       (snd (query_loop (S fuel) messages st))).
Proof.
  intros Hs. split; [| split; [| split; [| split]]].
  - intros tool_id name input rest acc.
    apply call_tools_step. exact Hs.
  - apply (process_query_dispatched_to s fuel query st Hs).
  - apply (process_query_dispatched_to s fuel query st Hs).
  - intros response Hmodel.
    apply query_loop_round_dispatched_to; assumption.
  - intros messages response Hmodel.
    apply query_loop_round_dispatched_to; assumption.
Qed.

End Properties.

(** * The properties on the concrete scenarios *)

Example split_example :
  split "/prompt summarize  topic=ai year=2024"
  = ["/prompt"; "summarize"; "topic=ai"; "year=2024"].
Proof. reflexivity. Qed.

Example strip_lower_example : lower (strip "  QuIt  ") = "quit".
Proof. reflexivity. Qed.

Example split1_example :
  split1 "="%char "a=b=c" = ["a"; "b=c"] /\ split1 "="%char "abc" = ["abc"].
Proof. split; reflexivity. Qed.

(** The end-to-end scenario of the specification, from [main]. *)
Example weather_conversation :
  printed (trace (snd (main (remote := weather_remote) 3
                         (start ["What is the weather in Paris?"; "quit"]))))
  = [banner;
     "Calling tool: get_weather (ID: t1) with args: {'city': 'Paris'}";
     "It is 18C and cloudy in Paris."].
Proof. vm_compute. reflexivity. Qed.

(** A [/prompt] line reaches the transport with the parsed arguments. *)
Example prompt_command_sends_parsed_args :
  exists rest,
    trace (snd (chat_turn (remote := weather_remote) 0
                  (connected 0 [("summarize", 0)]
                     ["/prompt summarize topic=ai year=2024 malformed"])))
    = Input "Query: "
      :: GetPrompt 0 "summarize" [("topic", "ai"); ("year", "2024")] :: rest.
Proof. vm_compute. eexists. reflexivity. Qed.

(** C1 as worded does not hold: in the weather conversation the final
    response has one text block, and [process_query] has printed two lines,
    the first for the tool call of the round before. *)
Lemma process_query_prints_calling_lines :
  let run := process_query (remote := weather_remote) 2
               "What is the weather in Paris?" (connected 0 [] []) in
  filter is_tool_use (weather_responses 1) = [] /\
  fst run = Ok tt /\
  printed (trace (snd run))
  = ["Calling tool: get_weather (ID: t1) with args: {'city': 'Paris'}";
     "It is 18C and cloudy in Paris."] /\
  printed (trace (snd run)) <> text_blocks (weather_responses 1).
Proof. vm_compute. repeat split. discriminate. Qed.

Lemma process_query_terminates_witness :
  exists m st',
    filter is_tool_use (weather_responses m) = [] /\
    (forall k, k < m -> filter is_tool_use (weather_responses k) <> []) /\
    (forall fuel, m < fuel ->
       process_query (remote := weather_remote) fuel
         "What is the weather in Paris?" (connected 0 [] []) = (Ok tt, st')) /\
    printed (trace st')
    = (printed (trace (connected 0 [] []))
       ++ calling_lines_upto weather_responses m
       ++ text_blocks (weather_responses m))%list.
Proof.
  apply (process_query_terminates (remote := weather_remote)
           "What is the weather in Paris?" (connected 0 [] []) 0
           weather_responses).
  - reflexivity.
  - intros k. eexists. reflexivity.
  - intros k. reflexivity.
  - exists 1. reflexivity.
Defined.

Lemma tool_round_appends_one_results_message_witness :
  exists tool_results,
    length tool_results = 2 /\
    map tool_use_id tool_results = ["t1"; "t2"] /\
    forall fuel,
      query_loop (remote := two_cities_remote) (S fuel)
        [mkMessage user (Str "Weather in Paris and Rome?")] (connected 0 [] [])
      = query_loop (remote := two_cities_remote) fuel
          [mkMessage user (Str "Weather in Paris and Rome?");
           mkMessage assistant (ContentBlocks (two_cities_responses 0));
           mkMessage user (ToolResults tool_results)]
          (with_transport_calls 2
             (log (tool_round_events 0 (two_cities_responses 0))
                (with_model_calls 1
                   (log [MessagesCreate CLAUDE_MODEL 2024 []
                           [mkMessage user (Str "Weather in Paris and Rome?")]]
                      (connected 0 [] []))))).
Proof.
  destruct (tool_round_appends_one_results_message (remote := two_cities_remote)
              [mkMessage user (Str "Weather in Paris and Rome?")]
              (connected 0 [] []) 0 (two_cities_responses 0))
    as (tool_results & Hlen & Hids & Hround & _).
  - reflexivity.
  - reflexivity.
  - cbn. lia.
  - intros i _. destruct i; eexists; reflexivity.
  - exists tool_results. split; [exact Hlen |]. split; [exact Hids |].
    exact Hround.
Defined.

(** In that round the one user message holds the two results, in the order
    of the requests. *)
Example two_cities_second_request :
  trace (snd (process_query (remote := two_cities_remote) 2
                "Weather in Paris and Rome?" (connected 0 [] [])))
    = [MessagesCreate CLAUDE_MODEL 2024 []
         [mkMessage user (Str "Weather in Paris and Rome?")];
       Print "Calling tool: get_weather (ID: t1) with args: {'city': 'Paris'}";
       @CallTool text_payloads 0 "get_weather" "{'city': 'Paris'}";
       Print "Calling tool: get_weather (ID: t2) with args: {'city': 'Rome'}";
       @CallTool text_payloads 0 "get_weather" "{'city': 'Rome'}";
       MessagesCreate CLAUDE_MODEL 2024 []
         [mkMessage user (Str "Weather in Paris and Rome?");
          mkMessage assistant (ContentBlocks (two_cities_responses 0));
          mkMessage user
            (ToolResults [mkToolResult "t1" "18C, cloudy";
                          mkToolResult "t2" "27C, sunny"])];
       Print "Paris is cloudy, Rome is sunny."].
Proof. vm_compute. reflexivity. Qed.

(** C2 as worded does not hold: the response of the round has one tool-use
    request, the call raises, and the round ends there: the exception
    leaves the loop, no user message is appended after the assistant
    message and the model is not asked again. *)
Lemma tool_round_call_raises_no_results_message :
  length (filter is_tool_use (weather_responses 0)) = 1 /\
  query_loop (remote := tool_down_remote) 5
    [mkMessage user (Str "What is the weather in Paris?")] (connected 0 [] [])
  = (Raise (ConnectionError "Connection closed"),
     mkState [] [] [] (Some 0) [ClientSession 0]
       [MessagesCreate CLAUDE_MODEL 2024 []
          [mkMessage user (Str "What is the weather in Paris?")];
        Print "Calling tool: get_weather (ID: t1) with args: {'city': 'Paris'}";
        @CallTool text_payloads 0 "get_weather" "{'city': 'Paris'}"]
       1 1 [] 1).
Proof. split; vm_compute; reflexivity. Qed.

(** C3 as worded does not hold: the endpoint cannot be reached, and
    [main] still prints the banner, reads the user's line and sends it to
    the model. *)
Lemma chat_loop_entered_after_connection_error :
  sse_client_reply (Remote := unreachable_remote) 0
  = inl (ConnectionError "All connection attempts failed") /\
  main (remote := unreachable_remote) 3 (start ["hello"; "quit"])
  = (Ok tt,
     mkState [] [] [] None []
       [Enter (SseClient remote_research_url);
        Print (nl ++ "Error connecting to server: All connection attempts failed");
        Print banner;
        Input "Query: ";
        MessagesCreate CLAUDE_MODEL 2024 [] [mkMessage user (Str "hello")];
        Print "Hello.";
        Input "Query: "]
       1 1 [] 0).
Proof. split; reflexivity. Qed.

Lemma connection_error_reported_then_chat_loop_witness :
  exists rest,
    trace (snd (main (remote := unreachable_remote) 3 (start ["hello"; "quit"])))
    = Enter (SseClient remote_research_url)
      :: Print (nl ++ "Error connecting to server: All connection attempts failed")
      :: Print banner :: Input "Query: " :: rest.
Proof.
  apply (connection_error_reported_then_chat_loop (remote := unreachable_remote)
           2 (start ["hello"; "quit"]) "ConnectionError"
           "All connection attempts failed").
  reflexivity.
Defined.

Lemma tool_calls_go_to_self_session_witness :
  dict_get (sessions (connected 3 [("get_weather", 7)] [])) "get_weather" = Some 7 /\
  (forall s' name input,
     In (CallTool s' name input)
        (trace (snd (process_query (remote := two_cities_remote) 2
                       "Weather in Paris and Rome?"
                       (connected 3 [("get_weather", 7)] [])))) ->
     In (CallTool s' name input) (trace (connected 3 [("get_weather", 7)] []))
     \/ s' = 3) /\
  round_dispatched_to (remote := two_cities_remote) 3
    (connected 3 [("get_weather", 7)] [])
    [mkMessage user (Str "Weather in Paris and Rome?")]
    (two_cities_responses 0)
    (snd (process_query (remote := two_cities_remote) 3
            "Weather in Paris and Rome?"
            (connected 3 [("get_weather", 7)] []))).
Proof.
  destruct (tool_calls_go_to_self_session (remote := two_cities_remote) 2
              "Weather in Paris and Rome?"
              (connected 3 [("get_weather", 7)] []) 3 eq_refl)
    as (_ & Honly & _ & Hfirst & _).
  split; [reflexivity |]. split; [exact Honly |].
  apply Hfirst. reflexivity.
Defined.

(** In that run both calls did go out, to session 3. *)
Example tool_call_ignores_registry :
  tool_calls (trace (snd (process_query (remote := two_cities_remote) 2
                            "Weather in Paris and Rome?"
                            (connected 3 [("get_weather", 7)] []))))
  = [@CallTool text_payloads 3 "get_weather" "{'city': 'Paris'}";
     @CallTool text_payloads 3 "get_weather" "{'city': 'Rome'}"].
Proof. reflexivity. Qed.

Lemma get_resource_papers_fallback_witness :
  get_resource (remote := weather_remote) "other://x"
    (connected 0 [("papers://folders", 0)] [])
  = (Ok tt,
     log [Print "Resource 'other://x' not found."]
       (connected 0 [("papers://folders", 0)] [])).
Proof.
  apply (get_resource_papers_fallback (remote := weather_remote)
           (connected 0 [("papers://folders", 0)] []) 0).
  reflexivity.
Defined.

Lemma parse_args_key_value_witness :
  parse_args (payloads := text_payloads) ["topic=ai=x"; "malformed"] []
  = parse_args ["malformed"] (dict_set [] "topic" "ai=x").
Proof.
  apply (proj1 (proj2 (parse_args_key_value (payloads := text_payloads)))
           "topic" "ai=x" ["malformed"] []).
  reflexivity.
Defined.

Lemma chat_loop_quit_or_empty_witness :
  chat_loop (remote := weather_remote) 1 (start ["QUIT"; "never read"])
  = (Ok tt,
     with_stdin ["never read"]
       (log [Print banner; Input "Query: "] (start ["QUIT"; "never read"]))).
Proof.
  apply (chat_loop_quit_or_empty (remote := weather_remote) 0
           (start ["QUIT"; "never read"]) "QUIT" ["never read"]).
  - reflexivity.
  - right. reflexivity.
Defined.

Lemma chat_loop_reports_error_and_continues_witness :
  exists rest,
    trace (snd (chat_while (remote := model_down_remote) 2
                  (start ["hello"; "quit"])))
    = (trace (snd (chat_turn (remote := model_down_remote) 1
                     (start ["hello"; "quit"])))
       ++ Print (nl ++ "Error: Connection error.")
          :: Input "Query: " :: rest)%list.
Proof.
  apply (chat_loop_reports_error_and_continues (remote := model_down_remote) 0
           (start ["hello"; "quit"]) "ConnectionError" "Connection error."
           (snd (chat_turn (remote := model_down_remote) 1
                   (start ["hello"; "quit"])))).
  reflexivity.
Defined.

Lemma registry_one_session_never_rewritten_witness :
  0 = next_object (start []) /\
  session (snd (connect_to_server (remote := weather_remote) (init (start []))))
  = Some 0.
Proof.
  apply (proj1 (registry_one_session_never_rewritten (remote := weather_remote)
                  (start []))
           "papers://folders" 0).
  reflexivity.
Defined.

Lemma get_resource_prints_first_content_witness :
  get_resource (remote := weather_remote) "papers://quantum"
    (connected 0 [("papers://folders", 0)] [])
  = (Ok tt,
     with_transport_calls 1
       (log [ReadResource 0 "papers://quantum";
             Print (nl ++ "Resource: papers://quantum");
             Print "Content:";
             Print "first"]
          (connected 0 [("papers://folders", 0)] []))).
Proof.
  apply (get_resource_prints_first_content (remote := weather_remote)
           (connected 0 [("papers://folders", 0)] []) "papers://quantum" 0
           (mkResourceContents "first") [mkResourceContents "second"]).
  - reflexivity.
  - reflexivity.
Defined.

(** * The further properties on the concrete scenarios *)

Lemma chat_while_spins_at_end_of_input_witness :
  chat_while (remote := weather_remote) 2 (start [])
  = (OutOfFuel,
     log [Input "Query: "; Print (nl ++ "Error: EOF when reading a line");
          Input "Query: "; Print (nl ++ "Error: EOF when reading a line")]
       (start [])).
Proof.
  apply (chat_while_spins_at_end_of_input (remote := weather_remote) 2 (start [])).
  reflexivity.
Defined.

Lemma query_loop_tool_call_raises_witness :
  fst (query_loop (remote := tool_down_remote) 5
         [mkMessage user (Str "What is the weather in Paris?")]
         (connected 0 [] []))
  = Raise (ConnectionError "Connection closed").
Proof.
  rewrite (query_loop_tool_call_raises (remote := tool_down_remote) 4
             [mkMessage user (Str "What is the weather in Paris?")]
             (connected 0 [] []) 0 (weather_responses 0) 0
             (ConnectionError "Connection closed")).
  - reflexivity.
  - reflexivity.
  - reflexivity.
  - apply le_n.
  - intros j Hj. lia.
  - reflexivity.
Defined.

Lemma query_loop_tool_call_without_session_witness :
  fst (query_loop (remote := weather_remote) 5
         [mkMessage user (Str "What is the weather in Paris?")] (start []))
  = Raise (Exception "AttributeError"
             "'MCP_ChatBot' object has no attribute 'session'").
Proof.
  rewrite (query_loop_tool_call_without_session (remote := weather_remote) 4
             [mkMessage user (Str "What is the weather in Paris?")] (start [])
             (weather_responses 0) "t1" "get_weather" "{'city': 'Paris'}" []).
  - reflexivity.
  - reflexivity.
  - reflexivity.
  - reflexivity.
Defined.

Lemma resolve_resource_none_iff_witness :
  resolve_resource [("get_weather", 0)] "papers://quantum" = None.
Proof.
  apply (proj2 (resolve_resource_none_iff [("get_weather", 0)] "papers://quantum")).
  split; [reflexivity |]. right.
  intros k v [[= <- <-] | []]. reflexivity.
Defined.

Lemma resolve_resource_fallback_first_witness :
  resolve_resource
    [("get_weather", 1); ("papers://folders", 2); ("papers://ai", 3)]
    "papers://quantum"
  = Some 2.
Proof.
  apply (resolve_resource_fallback_first
           [("get_weather", 1); ("papers://folders", 2); ("papers://ai", 3)]
           "papers://quantum" [("get_weather", 1)] "papers://folders" 2
           [("papers://ai", 3)]).
  - reflexivity.
  - reflexivity.
  - reflexivity.
  - intros k v [[= <- <-] | []]. reflexivity.
  - reflexivity.
Defined.

Lemma get_resource_reports_failed_read_witness :
  get_resource (remote := model_down_remote) "papers://folders"
    (connected 0 [("papers://folders", 0)] [])
  = (Ok tt,
     with_transport_calls 1
       (log [ReadResource 0 "papers://folders"; Print "No content available."]
          (connected 0 [("papers://folders", 0)] []))).
Proof.
  apply (proj2 (get_resource_reports_failed_read (remote := model_down_remote)
                  (connected 0 [("papers://folders", 0)] [])
                  "papers://folders" 0 eq_refl)).
  left. reflexivity.
Defined.

Lemma execute_prompt_runs_first_message_witness :
  execute_prompt (remote := weather_remote) 3 "summarize" [("topic", "ai")]
    (connected 0 [("summarize", 0)] [])
  = try_except
      (process_query (remote := weather_remote) 3 "Summarize the papers.")
      (fun e => print ("Error: " ++ str_exn e))
      (log [Print (nl ++ "Executing prompt 'summarize'...")]
         (with_transport_calls 1
            (log [GetPrompt 0 "summarize" [("topic", "ai")]]
               (connected 0 [("summarize", 0)] [])))).
Proof.
  apply (execute_prompt_runs_first_message (remote := weather_remote) 3
           "summarize" [("topic", "ai")] (connected 0 [("summarize", 0)] []) 0
           (PlainText "Summarize the papers.") "Summarize the papers." []).
  - reflexivity.
  - reflexivity.
  - reflexivity.
Defined.

Lemma parse_args_last_value_wins_witness :
  dict_get [("topic", "ml"); ("year", "2024")] "topic" = Some "ml".
Proof.
  apply (parse_args_last_value_wins (payloads := text_payloads)
           ["topic=ai"] "topic" "ml" ["year=2024"; "malformed"] [] (start [])
           [("topic", "ml"); ("year", "2024")]).
  - reflexivity.
  - intros v [H | [H | []]]; discriminate.
  - reflexivity.
Defined.

Lemma dispatch_unknown_command_witness :
  dispatch (remote := weather_remote) 1 "/FOO bar" (start [])
  = (Ok false, log [Print "Unknown command: /foo"] (start [])).
Proof.
  apply (dispatch_unknown_command (remote := weather_remote) 1 "/FOO bar"
           "/FOO" ["bar"] (start [])).
  - reflexivity.
  - reflexivity.
  - reflexivity.
  - discriminate.
  - discriminate.
Defined.

Lemma dispatch_prompt_without_name_witness :
  dispatch (remote := weather_remote) 1 "/Prompt" (start [])
  = (Ok false,
     log [Print "Usage: /prompt <name> <arg1=value1> <arg2=value2>"] (start [])).
Proof.
  apply (dispatch_prompt_without_name (remote := weather_remote) 1 "/Prompt"
           "/Prompt" (start [])).
  - reflexivity.
  - reflexivity.
  - reflexivity.
Defined.

Lemma dispatch_command_raises_no_Exception_witness :
  no_Exception
    (fst (dispatch (remote := model_down_remote) 3 "/prompt summarize"
            (connected 0 [("summarize", 0)] []))).
Proof.
  apply (dispatch_command_raises_no_Exception (remote := model_down_remote) 3
           "/prompt summarize" (connected 0 [("summarize", 0)] [])).
  right. reflexivity.
Defined.

Lemma connect_to_server_registers_everything_witness :
  dict_get (sessions (snd (connect_to_server (remote := weather_remote) (start []))))
    "papers://folders"
  = Some 0.
Proof.
  apply (connect_to_server_registers_everything (remote := weather_remote)
           (start [])
           [@mkTool text_payloads "get_weather" (Some "Weather of a city") "{}"]
           (Some [mkPrompt "summarize" None (Some [ArgObject "topic"])])
           (Some ["papers://folders"])
           eq_refl eq_refl eq_refl eq_refl eq_refl).
  right. right. left. reflexivity.
Defined.

Lemma connect_to_server_initialize_fails_witness :
  session (snd (connect_to_server (remote := handshake_fails_remote) (start [])))
  = Some 0.
Proof.
  apply (connect_to_server_initialize_fails (remote := handshake_fails_remote)
           (start []) "ConnectionError" "Connection closed" eq_refl eq_refl).
Defined.

Lemma main_releases_contexts_witness :
  exit_stack (snd (main (remote := weather_remote) 2 (start ["quit"]))) = [].
Proof.
  apply (main_releases_contexts (remote := weather_remote) 2 (start ["quit"])
           (Ok tt)).
  - vm_compute. reflexivity.
  - discriminate.
Defined.
